(** * A shallow embedding of [vi.py], the minimal modal editor

    The editor object ([class Editor]) becomes a record, every handler a
    function from the record and the key code to a result that is either
    the new record with the handler's return value or the Python exception
    the handler raises from its own computation on the state.

    Drawing on the terminal and writing the file are not part of the
    state and are left out: of [refresh] only the index into the buffer
    made by [buffer2x] is kept, and [save_file] gives the text to write.
    What curses or the file system may raise (a line that [addstr]
    refuses, a file that cannot be written) is outside the model, so [Ok]
    stands for the handler's return when the terminal and the file system
    raise nothing.  The properties of the states that a handler or a
    session reaches are stated for the runs that return.

    Key codes are Python integers ([Z]).  The line and the column of a
    position are natural numbers: the code builds them from 0 with
    [+ 1], with [- 1] under a test [> 0], with [min] and with [len], so
    that Python's indexing from the end with negative numbers never comes
    into play.  What the terminal supplies besides key codes, the line
    typed after a colon, is a parameter [typed] of the handlers. *)

From Stdlib Require Import ZArith Ascii String Lia.
From stdpp Require Import base tactics option list.

Local Open Scope Z_scope.

(** ** Python values *)

(** A Python [str] is a sequence of code points; [len] counts code points. *)
Abbreviation char := Z (only parsing).
Abbreviation str := (list Z) (only parsing).

Definition ord (c : ascii) : Z := Z.of_N (N_of_ascii c).

Definition str_of (s : string) : str := map ord (list_ascii_of_string s).

(** Uncaught exceptions that the handlers can raise. *)
Inductive exn := IndexError | TypeError | ValueError.

Inductive result (A : Type) :=
| Ok (a : A)
| Raise (e : exn).
Arguments Ok {A} a.
Arguments Raise {A} e.

Definition bind {A B} (m : result A) (f : A -> result B) : result B :=
  match m with
  | Ok a => f a
  | Raise e => Raise e
  end.

Notation "'let*' x ':=' m 'in' k" := (bind m (fun x => k))
  (at level 10, x name, m at level 100, k at level 200).
Notation "'let*' ' p ':=' m 'in' k" := (bind m (fun p => k))
  (at level 10, p pattern, m at level 100, k at level 200).

(** [l[i]] for an index that is not negative. *)
Definition getitem {A} (l : list A) (i : nat) : result A :=
  match l !! i with
  | Some a => Ok a
  | None => Raise IndexError
  end.

(** [l[i] = v] for an index that is not negative. *)
Definition setitem {A} (l : list A) (i : nat) (v : A) : result (list A) :=
  if decide (i < length l)%nat then Ok (<[i:=v]> l) else Raise IndexError.

(** [l.insert(i, v)]: past the end it appends. *)
Definition list_insert_at {A} (l : list A) (i : nat) (v : A) : list A :=
  take i l ++ v :: drop i l.

(** [del l[a:b]]: nothing goes when the slice is empty. *)
Definition del_slice {A} (l : list A) (a b : nat) : list A :=
  if decide (a < b)%nat then take a l ++ drop b l else l.

(** [bytes(l)] takes integers of [range(0, 256)] only. *)
Definition is_byte (b : Z) : bool := (0 <=? b) && (b <? 256).

Definition bytes (l : list Z) : result (list Z) :=
  if forallb is_byte l then Ok l else Raise ValueError.

(** ** [bytes.decode("utf-8")], strict

    The whole byte string decodes or the call raises [UnicodeDecodeError]
    ([None] here): truncated sequences, stray continuation bytes, overlong
    forms, surrogates and code points above 0x10FFFF are all refused. *)

Definition is_cont (b : Z) : bool := (0x80 <=? b) && (b <=? 0xBF).

Definition in_range (lo hi b : Z) : bool := (lo <=? b) && (b <=? hi).

(** The second byte of a three-byte form. *)
Definition second3_ok (b0 b1 : Z) : bool :=
  if b0 =? 0xE0 then in_range 0xA0 0xBF b1
  else if b0 =? 0xED then in_range 0x80 0x9F b1
  else is_cont b1.

(** The second byte of a four-byte form. *)
Definition second4_ok (b0 b1 : Z) : bool :=
  if b0 =? 0xF0 then in_range 0x90 0xBF b1
  else if b0 =? 0xF4 then in_range 0x80 0x8F b1
  else is_cont b1.

Definition cp2 (b0 b1 : Z) : Z :=
  Z.lor (Z.shiftl (Z.land b0 0x1F) 6) (Z.land b1 0x3F).

Definition cp3 (b0 b1 b2 : Z) : Z :=
  Z.lor (Z.shiftl (Z.land b0 0x0F) 12)
        (Z.lor (Z.shiftl (Z.land b1 0x3F) 6) (Z.land b2 0x3F)).

Definition cp4 (b0 b1 b2 b3 : Z) : Z :=
  Z.lor (Z.shiftl (Z.land b0 0x07) 18)
        (Z.lor (Z.shiftl (Z.land b1 0x3F) 12)
               (Z.lor (Z.shiftl (Z.land b2 0x3F) 6) (Z.land b3 0x3F))).

Fixpoint utf8_decode (bs : list Z) : option str :=
  match bs with
  | [] => Some []
  | b0 :: t0 =>
    if b0 <? 0x80 then cons b0 <$> utf8_decode t0
    else if b0 <? 0xC2 then None
    else if b0 <? 0xE0 then
      match t0 with
      | b1 :: t1 =>
        if is_cont b1 then cons (cp2 b0 b1) <$> utf8_decode t1 else None
      | _ => None
      end
    else if b0 <? 0xF0 then
      match t0 with
      | b1 :: b2 :: t2 =>
        if second3_ok b0 b1 && is_cont b2
        then cons (cp3 b0 b1 b2) <$> utf8_decode t2 else None
      | _ => None
      end
    else if b0 <? 0xF5 then
      match t0 with
      | b1 :: b2 :: b3 :: t3 =>
        if second4_ok b0 b1 && is_cont b2 && is_cont b3
        then cons (cp4 b0 b1 b2 b3) <$> utf8_decode t3 else None
      | _ => None
      end
    else None
  end.

(** ** The editor object *)

Inductive Mode := Command | Insert | Visual.

Record Editor := mkEditor {
  filename : option str;
  buffer : list str;
  pos : nat * nat;
  mode : Mode;
  visual_start : option (nat * nat);
  utf8buffer : list Z
}.

Definition set_buffer (self : Editor) (b : list str) : Editor :=
  mkEditor (filename self) b (pos self) (mode self) (visual_start self)
           (utf8buffer self).

Definition set_pos (self : Editor) (p : nat * nat) : Editor :=
  mkEditor (filename self) (buffer self) p (mode self) (visual_start self)
           (utf8buffer self).

Definition set_mode (self : Editor) (m : Mode) : Editor :=
  mkEditor (filename self) (buffer self) (pos self) m (visual_start self)
           (utf8buffer self).

Definition set_visual_start (self : Editor) (v : option (nat * nat)) : Editor :=
  mkEditor (filename self) (buffer self) (pos self) (mode self) v
           (utf8buffer self).

Definition set_utf8buffer (self : Editor) (u : list Z) : Editor :=
  mkEditor (filename self) (buffer self) (pos self) (mode self)
           (visual_start self) u.

(** [load_file]: [file] is what the file named holds when it exists, one
    entry per line with the line ends stripped. *)
Definition load_file (self : Editor) (file : option (list str)) : Editor :=
  match filename self, file with
  | Some (_ :: _), Some lines =>
    set_buffer self (match lines with [] => [[]] | _ => lines end)
  | _, _ => self
  end.

(** [Editor.__init__]. *)
Definition init (fname : option str) (file : option (list str)) : Editor :=
  load_file (mkEditor fname [[]] (0%nat, 0%nat) Command None []) file.

(** ** Display width *)

Definition width (c : char) : Z := if 127 <? c then 2 else 1.

(** The width of a run of characters, summed as [buffer2x] does. *)
Definition display_width (cs : str) : Z := foldl (fun x c => x + width c) 0 cs.

Definition buffer2x (self : Editor) (y p : nat) : result Z :=
  let* line := getitem (buffer self) y in
  Ok (display_width (take p line)).

(** The loop of [pos2buffer]: [k] is the counter of [enumerate], [i] the
    loop variable as last assigned and [p] the width walked so far. *)
Fixpoint pos2buffer_loop (x : Z) (cs : str) (k i p : Z) : Z :=
  match cs with
  | [] => i + (x - p) + 1
  | c :: cs' =>
    if p >=? x then k else pos2buffer_loop x cs' (k + 1) k (p + width c)
  end.

Definition pos2buffer (self : Editor) (y : nat) (x : Z) : result Z :=
  let* line := getitem (buffer self) y in
  Ok (pos2buffer_loop x line 0 0 0).

(** What [refresh] needs from the state: the cursor's screen column.
    The calls that draw are left to the terminal. *)
Definition refresh (self : Editor) : result unit :=
  let* _ := buffer2x self (pos self).1 (pos self).2 in
  Ok tt.

(** ** The ex command line *)

(** [save_file]: the path and the text written, when there is a file
    name.  The write itself belongs to the file system and is taken to
    succeed. *)
Definition save_file (self : Editor) : option (str * str) :=
  match filename self with
  | Some (c :: f) =>
    Some (c :: f, concat (map (fun l => l ++ [10]) (buffer self)))
  | _ => None
  end.

(** [typed] is the bytes object that [getstr] returns for the line typed
    after the colon (empty as well when [getstr] raises).  The result is
    the file write that took place, if any, with the function's return
    value. *)
Definition handle_ex_command (self : Editor) (typed : list Z)
  : option (str * str) * bool :=
  let cmd := match typed with
             | [] => []
             | _ => default [] (utf8_decode typed)
             end in
  if decide (cmd = str_of "w") then (save_file self, true)
  else if decide (cmd = str_of "q") then (None, false)
  else if decide (cmd = str_of "wq") then (save_file self, false)
  else (None, true).

(** ** The handlers *)

Definition KEY_BACKSPACE : Z := 263.

(** [curses.ascii.isctrl(chr(ch))]. *)
Definition isctrl (ch : Z) : bool := (0 <=? ch) && (ch <? 32).

Definition handle_command (self : Editor) (ch : Z) (typed : list Z)
  : result (Editor * bool) :=
  let '(y, x) := pos self in
  let* self :=
    (if ch =? ord "i" then Ok (set_mode self Insert)
     else if ch =? ord "a" then
       let* line := getitem (buffer self) y in
       let self := if decide (x < length line)%nat
                   then set_pos self (y, x + 1)%nat else self in
       Ok (set_mode self Insert)
     else if ch =? ord "v" then
       Ok (set_visual_start (set_mode self Visual) (Some (pos self)))
     else if ch =? ord "h" then
       Ok (if decide (0 < x)%nat then set_pos self (y, x - 1)%nat else self)
     else if ch =? ord "l" then
       let* line := getitem (buffer self) y in
       Ok (if decide (x < length line)%nat
             then set_pos self (y, x + 1)%nat else self)
     else if ch =? ord "j" then
       if decide (Z.of_nat y < Z.of_nat (length (buffer self)) - 1) then
         let* next := getitem (buffer self) (y + 1) in
         Ok (set_pos self (y + 1, x `min` length next)%nat)
       else Ok self
     else if ch =? ord "k" then
       if decide (0 < y)%nat then
         let* prev := getitem (buffer self) (y - 1) in
         Ok (set_pos self (y - 1, x `min` length prev)%nat)
       else Ok self
     else if ch =? ord ":" then
       let '(_, _) := handle_ex_command self typed in Ok self
     else Ok self) in
  let* _ := refresh self in
  Ok (self, true).

(** The first statement of [handle_insert]: the bytes kept in [utf8buffer]
    and the new one are decoded together; [s] is the text decoded, if any. *)
Definition insert_decode (self : Editor) (ch : Z)
  : result (option str * Editor) :=
  if (ch <? 256) && negb (ch =? 27) then
    let* bs := bytes (utf8buffer self ++ [ch]) in
    match utf8_decode bs with
    | Some s => Ok (Some s, set_utf8buffer self [])
    | None => Ok (None, set_utf8buffer self (utf8buffer self ++ [ch]))
    end
  else Ok (None, set_utf8buffer self []).

(** The chain of tests on [ch] that follows. *)
Definition insert_dispatch (s : option str) (self : Editor) (ch : Z)
  : result Editor :=
  let '(y, x) := pos self in
  if ch =? 27 then
    let self := set_mode self Command in
    Ok (if decide (0 < x)%nat then set_pos self (y, x - 1)%nat else self)
  else if ch =? 10 then
    let* line := getitem (buffer self) y in
    let* b := setitem (buffer self) y (take x line) in
    let b := list_insert_at b (y + 1) (drop x line) in
    Ok (set_pos (set_buffer self b) (y + 1, 0)%nat)
  else if (ch =? KEY_BACKSPACE) || (ch =? 127) then
    if decide (0 < x)%nat then
      let* line := getitem (buffer self) y in
      let* b := setitem (buffer self) y (take (x - 1) line ++ drop x line) in
      Ok (set_pos (set_buffer self b) (y, x - 1)%nat)
    else Ok self
  else
    match s with
    | Some (c :: s') =>
      if negb (isctrl ch) then
        let* line := getitem (buffer self) y in
        let* b := setitem (buffer self) y
                    (take x line ++ (c :: s') ++ drop x line) in
        Ok (set_pos (set_buffer self b) (y, x + length (c :: s'))%nat)
      else Ok self
    | _ => Ok self
    end.

Definition handle_insert (self : Editor) (ch : Z) : result (Editor * bool) :=
  let* '(s, self) := insert_decode self ch in
  let* self := insert_dispatch s self ch in
  let* _ := refresh self in
  Ok (self, true).

Definition handle_visual (self : Editor) (ch : Z) (typed : list Z)
  : result (Editor * bool) :=
  let* self :=
    (if ch =? 27 then
       Ok (set_visual_start (set_mode self Command) None)
     else if ch =? ord "d" then
       let* '(start_line, start_col) :=
         match visual_start self with
         | Some a => Ok a
         | None => Raise TypeError
         end in
       let '(end_line, end_col) := pos self in
       let '(start_line, start_col, end_line, end_col) :=
         if decide ((end_line < start_line)%nat
                    ∨ (start_line = end_line ∧ (end_col < start_col)%nat))
         then (end_line, end_col, start_line, start_col)
         else (start_line, start_col, end_line, end_col) in
       let* self :=
         (if decide (start_line = end_line) then
            let* line := getitem (buffer self) start_line in
            let* b := setitem (buffer self) start_line
                  (take start_col line ++ drop end_col line) in
            Ok (set_pos (set_buffer self b) (start_line, start_col))
          else
            let* first := getitem (buffer self) start_line in
            let* last := getitem (buffer self) end_line in
            let* b := setitem (buffer self) start_line
                  (take start_col first ++ drop end_col last) in
            let b := del_slice b (start_line + 1) (end_line + 1) in
            Ok (set_pos (set_buffer self b) (start_line, start_col))) in
       Ok (set_visual_start (set_mode self Command) None)
     else if ch =? ord "y" then
       Ok (set_visual_start (set_mode self Command) None)
     else if (ch =? ord "h") || (ch =? ord "j") || (ch =? ord "k")
             || (ch =? ord "l") then
       let* '(self, _) := handle_command self ch typed in
       Ok self
     else Ok self) in
  let* _ := refresh self in
  Ok (self, true).

Definition handle_input (self : Editor) (ch : Z) (typed : list Z)
  : result (Editor * bool) :=
  match mode self with
  | Command => handle_command self ch typed
  | Insert => handle_insert self ch
  | Visual => handle_visual self ch typed
  end.

(** [main_loop] over the key codes that [getch] returns, each with the
    line that [getstr] would return at that point; the state when the
    loop breaks or the codes run out.  The [refresh] before the loop only
    draws the state that [Editor.__init__] built. *)
Fixpoint main_loop (self : Editor) (events : list (Z * list Z))
  : result Editor :=
  match events with
  | [] => Ok self
  | (ch, typed) :: events =>
    let* '(self, continue) := handle_input self ch typed in
    if continue then main_loop self events else Ok self
  end.

(** Two events in a row, as [main_loop] feeds them while the handler
    keeps returning [True]. *)
Definition handle_twice (self : Editor) (ch : Z) (typed : list Z)
  : result (Editor * bool) :=
  let* '(self, continue) := handle_input self ch typed in
  if continue then handle_input self ch typed else Ok (self, continue).

(** ** Well-formed states *)

(** A position of the buffer: the line exists and the column is at most
    its length. *)
Definition valid_pos (b : list str) (p : nat * nat) : Prop :=
  ∃ line, b !! p.1 = Some line ∧ (p.2 ≤ length line)%nat.

(** The three conditions on the cursor. *)
Definition in_bounds (self : Editor) : Prop :=
  buffer self ≠ []
  ∧ ((pos self).1 < length (buffer self))%nat
  ∧ ∀ line, buffer self !! (pos self).1 = Some line →
            ((pos self).2 ≤ length line)%nat.

(** While the mode is visual the anchor is a position of the buffer. *)
Definition anchor_ok (self : Editor) : Prop :=
  mode self = Visual →
  ∃ a, visual_start self = Some a ∧ valid_pos (buffer self) a.

(** A state as the editor builds them: the cursor is in bounds, the pending
    bytes are bytes and the anchor is there when it is needed. *)
Definition wf (self : Editor) : Prop :=
  in_bounds self
  ∧ forallb is_byte (utf8buffer self) = true
  ∧ anchor_ok self.

(** Pending bytes are kept only after a decoding that failed. *)
Definition pending_ok (self : Editor) : Prop :=
  utf8buffer self = [] ∨ utf8_decode (utf8buffer self) = None.

(** Bytes that no continuation can turn into text. *)
Definition structurally_invalid (bs : list Z) : Prop :=
  ∀ ext, utf8_decode (bs ++ ext) = None.

(** The events that leave insert or visual mode for command mode. *)
Definition exits_to_command (m : Mode) (ch : Z) : bool :=
  match m with
  | Command => false
  | Insert => ch =? 27
  | Visual => (ch =? 27) || (ch =? ord "d") || (ch =? ord "y")
  end.

(** The state in visual mode with anchor [a] and cursor [c]. *)
Definition selecting (self : Editor) (a c : nat * nat) : Editor :=
  set_pos (set_visual_start (set_mode self Visual) (Some a)) c.

(** ** Reading the file back *)

(** [f.readlines()] on the text of the file, as the text layer hands it
    over (every line end is a single "\n"): each line keeps its "\n" and
    the last one may lack it.  [cur] is the part of the current line read
    so far. *)
Fixpoint readlines_from (cur : str) (text : str) : list str :=
  match text with
  | [] => match cur with [] => [] | _ => [cur] end
  | c :: text' =>
    if c =? 10 then (cur ++ [c]) :: readlines_from [] text'
    else readlines_from (cur ++ [c]) text'
  end.

Definition readlines (text : str) : list str := readlines_from [] text.

(** [line.rstrip('\n\r')]. *)
Fixpoint rstrip (line : str) : str :=
  match line with
  | [] => []
  | c :: line' =>
    match rstrip line' with
    | [] => if (c =? 10) || (c =? 13) then [] else [c]
    | r => c :: r
    end
  end.

(** The list that [load_file] builds from the text of the file. *)
Definition file_lines (text : str) : list str := map rstrip (readlines text).

(** No line holds a line-end character. *)
Definition no_line_ends (b : list str) : Prop :=
  Forall (Forall (λ c, c ≠ 10 ∧ c ≠ 13)) b.

(** No prefix of the pending bytes decodes: each of them was kept after a
    decoding that failed. *)
Definition pending_strict (self : Editor) : Prop :=
  ∀ k, (0 < k ≤ length (utf8buffer self))%nat →
       utf8_decode (take k (utf8buffer self)) = None.

(** The key codes [bs] in the order typed, none of them a colon line. *)
Definition keys (bs : list Z) : list (Z * list Z) := map (λ b, (b, [])) bs.

(** A text with "\n" put at its end when it is not empty and does not end
    with one. *)
Definition ensure_newline (text : str) : str :=
  match last text with
  | None => []
  | Some c => if c =? 10 then text else text ++ [10]
  end.

(** ** Events that can be repeated *)

(** A motion has nothing left to do after its first step: at most one
    step separates the cursor from the edge towards which the key moves. *)
Definition settles (self : Editor) (ch : Z) : Prop :=
  let '(y, x) := pos self in
  (ch = ord "h" → (x ≤ 1)%nat)
  ∧ (ch = ord "l" →
     ∀ line, buffer self !! y = Some line → (length line ≤ x + 1)%nat)
  ∧ (ch = ord "j" → (length (buffer self) ≤ y + 2)%nat)
  ∧ (ch = ord "k" → (y ≤ 1)%nat).

(** The events that give the same state handled twice as handled once. *)
Definition repeatable (self : Editor) (ch : Z) : Prop :=
  match mode self with
  | Command => ch ≠ ord "i" ∧ ch ≠ ord "a" ∧ settles self ch
  | Visual => settles self ch
  | Insert =>
    ch = 27
    ∨ (256 ≤ ch ∧ (ch = KEY_BACKSPACE → ((pos self).2 ≤ 1)%nat))
    ∨ (utf8_decode (utf8buffer self ++ [ch]) ≠ None
       ∧ ((ch = 127 ∧ ((pos self).2 ≤ 1)%nat)
          ∨ (0 ≤ ch < 32 ∧ ch ≠ 10 ∧ ch ≠ 27)))
  end.

(** * Properties *)

(** ** Indexing and the cursor conditions *)

Lemma getitem_Some {A} (l : list A) i a : l !! i = Some a → getitem l i = Ok a.
Proof. intros H. unfold getitem. by rewrite H. Qed.

Lemma setitem_lt {A} (l : list A) i v :
  (i < length l)%nat → setitem l i v = Ok (<[i:=v]> l).
Proof. intros H. unfold setitem. by rewrite decide_True. Qed.

Lemma in_bounds_valid_pos self :
  in_bounds self ↔ valid_pos (buffer self) (pos self).
Proof.
  unfold in_bounds, valid_pos. split.
  - intros (_ & Hlt & Hcol).
    destruct (lookup_lt_is_Some_2 _ _ Hlt) as [line Hline]. eauto.
  - intros (line & Hline & Hcol). split; [|split].
    + intros E. by rewrite E in Hline.
    + by eapply lookup_lt_Some.
    + intros line' Hline'. congruence.
Qed.

Lemma refresh_valid self :
  valid_pos (buffer self) (pos self) → refresh self = Ok tt.
Proof.
  intros (line & Hline & _). unfold refresh, buffer2x, getitem.
  by rewrite Hline.
Qed.

Lemma finish_valid self :
  valid_pos (buffer self) (pos self) →
  (let* _ := refresh self in Ok (self, true)) = Ok (self, true).
Proof. intros H. by rewrite (refresh_valid _ H). Qed.

Ltac unf :=
  unfold selecting, set_pos, set_mode, set_buffer, set_visual_start,
    set_utf8buffer in *;
  cbn [filename buffer pos mode visual_start utf8buffer fst snd bind] in *.

(** Key codes written with [ord] become numerals, and the tests on
    integers that [lia] settles are evaluated. *)
Ltac ords :=
  unfold KEY_BACKSPACE in *;
  repeat match goal with
  | |- context [ord ?c] =>
    let v := eval vm_compute in (ord c) in change (ord c) with v
  end.

Ltac ztest :=
  repeat match goal with
  | |- context [?a =? ?b] =>
    first [ rewrite (proj2 (Z.eqb_eq a b)) by lia
          | rewrite (proj2 (Z.eqb_neq a b)) by lia ]
  | |- context [?a <? ?b] =>
    first [ rewrite (proj2 (Z.ltb_lt a b)) by lia
          | rewrite (proj2 (Z.ltb_ge a b)) by lia ]
  | |- context [?a <=? ?b] =>
    first [ rewrite (proj2 (Z.leb_le a b)) by lia
          | rewrite (proj2 (Z.leb_gt a b)) by lia ]
  end.

Ltac getitem_lt :=
  match goal with
  | |- context [getitem ?l ?i] =>
    let E := fresh "E" in
    unfold getitem at 1; destruct (l !! i) eqn:E;
    [| apply lookup_ge_None in E; exfalso; lia]
  end.

Ltac solve_valid_pos :=
  unfold valid_pos; unf; eexists; split; [eassumption | lia].

Lemma valid_pos_setitem (b : list (list Z)) y l x :
  (y < length b)%nat → (x ≤ length l)%nat → valid_pos (<[y:=l]> b) (y, x).
Proof.
  intros Hy Hx. exists l. split; [|done]. by apply list_lookup_insert_eq.
Qed.

Lemma valid_pos_split (b : list (list Z)) y l1 l2 :
  (y < length b)%nat →
  valid_pos (list_insert_at (<[y:=l1]> b) (y + 1) l2) ((y + 1)%nat, 0%nat).
Proof.
  intros Hy. exists l2. split; [|simpl; lia]. unfold list_insert_at. simpl.
  rewrite lookup_app_r; rewrite length_take, length_insert; [|lia].
  by replace (y + 1 - (y + 1) `min` length b)%nat with 0%nat by lia.
Qed.

Lemma valid_pos_del_slice (b : list (list Z)) y l e x :
  (y < length b)%nat → (x ≤ length l)%nat →
  valid_pos (del_slice (<[y:=l]> b) (y + 1) e) (y, x).
Proof.
  intros Hy Hx. exists l. split; [|done]. unfold del_slice. simpl.
  case_decide; [|by apply list_lookup_insert_eq].
  rewrite lookup_app_l by (rewrite length_take, length_insert; lia).
  rewrite lookup_take_lt by lia. by apply list_lookup_insert_eq.
Qed.

Ltac solve_edit_pos :=
  first [ apply valid_pos_setitem | apply valid_pos_del_slice ];
  [done | rewrite ?length_app, ?length_take, ?length_drop; simpl; lia].

(** ** Each handler keeps the state well formed *)

Lemma handle_command_ok self ch typed :
  in_bounds self → anchor_ok self →
  ∃ self', handle_command self ch typed = Ok (self', true)
           ∧ in_bounds self' ∧ anchor_ok self'
           ∧ utf8buffer self' = utf8buffer self.
Proof.
  intros Hb Hv. apply in_bounds_valid_pos in Hb.
  destruct self as [f b [y x] m v u]. destruct Hb as (line & Hline & Hx).
  pose proof (lookup_lt_Some _ _ _ Hline) as Hy.
  unfold handle_command, anchor_ok in *.
  setoid_rewrite in_bounds_valid_pos. unf.
  unfold getitem at 1 2. rewrite Hline.
  repeat case_match; unf; repeat case_decide; unf; try getitem_lt; unf.
  all: rewrite finish_valid by solve_valid_pos.
  all: eexists; (split; [reflexivity|]); unf.
  all: split; [solve_valid_pos | split; [|reflexivity]].
  all: try discriminate; try assumption.
  all: intros _; eexists; split; [reflexivity | solve_valid_pos].
Qed.

Lemma bytes_snoc u ch :
  forallb is_byte u = true → 0 ≤ ch → ch < 256 →
  bytes (u ++ [ch]) = Ok (u ++ [ch]) ∧ forallb is_byte (u ++ [ch]) = true.
Proof.
  intros Hu H0 H1. unfold bytes.
  assert (forallb is_byte (u ++ [ch]) = true) as ->; [|done].
  rewrite forallb_app, Hu. simpl. unfold is_byte.
  destruct (Z.leb_spec 0 ch), (Z.ltb_spec ch 256); simpl; lia.
Qed.

Lemma insert_decode_ok self ch :
  forallb is_byte (utf8buffer self) = true → 0 ≤ ch →
  ∃ s u', insert_decode self ch = Ok (s, set_utf8buffer self u')
          ∧ forallb is_byte u' = true
          ∧ (u' = [] ∨ utf8_decode u' = None).
Proof.
  intros Hu Hch. unfold insert_decode.
  destruct (Z.ltb_spec ch 256); simpl; [|exists None, []; auto].
  destruct (ch =? 27); simpl; [exists None, []; auto|].
  destruct (bytes_snoc _ ch Hu Hch H) as [-> Hu']. simpl.
  destruct (utf8_decode _) as [s|] eqn:Hdec;
    [exists (Some s), []; auto
    | exists None, (utf8buffer self ++ [ch]); auto].
Qed.

Lemma insert_dispatch_ok s self ch :
  in_bounds self → mode self = Insert →
  ∃ self', insert_dispatch s self ch = Ok self'
           ∧ in_bounds self' ∧ mode self' ≠ Visual
           ∧ utf8buffer self' = utf8buffer self
           ∧ (ch = 27 → mode self' = Command).
Proof.
  intros Hb Hm. apply in_bounds_valid_pos in Hb.
  destruct self as [f b [y x] m v u]. destruct Hb as (line & Hline & Hx).
  pose proof (lookup_lt_Some _ _ _ Hline) as Hy.
  unfold insert_dispatch. setoid_rewrite in_bounds_valid_pos. unf. subst m.
  unfold getitem. rewrite Hline. unf. rewrite !setitem_lt by done.
  repeat case_match; unf; repeat case_decide; unf.
  all: rewrite ?setitem_lt by done; unf.
  all: eexists; (split; [reflexivity|]); unf.
  all: split; [|split; [discriminate | split; [reflexivity|]]].
  all: try first [ solve_edit_pos | by apply (valid_pos_split b y)
                 | solve_valid_pos ].
  all: try reflexivity.
  all: intros ->; discriminate.
Qed.

Lemma handle_insert_ok self ch :
  wf self → mode self = Insert → 0 ≤ ch →
  ∃ self', handle_insert self ch = Ok (self', true) ∧ wf self'
           ∧ pending_ok self'
           ∧ (ch = 27 → mode self' = Command).
Proof.
  intros (Hb & Hu & _) Hm Hch. unfold handle_insert.
  destruct (insert_decode_ok self ch Hu Hch) as (s & u' & -> & Hu' & Hp).
  cbn [bind].
  destruct (insert_dispatch_ok s (set_utf8buffer self u') ch)
    as (self' & -> & Hb' & Hm' & Hu'' & H27); [done..|]. cbn [bind].
  rewrite finish_valid by by apply in_bounds_valid_pos.
  exists self'. split; [done|]. split; [|split; [|done]].
  - split; [done|]. split; [by rewrite Hu''|]. by intros ?.
  - unfold pending_ok. by rewrite Hu''.
Qed.

Lemma handle_visual_ok self ch typed :
  in_bounds self → anchor_ok self → mode self = Visual →
  ∃ self', handle_visual self ch typed = Ok (self', true)
           ∧ in_bounds self' ∧ anchor_ok self'
           ∧ utf8buffer self' = utf8buffer self
           ∧ (exits_to_command Visual ch = true → mode self' = Command).
Proof.
  intros Hb Hv Hm. unfold handle_visual, exits_to_command.
  destruct (ch =? 27) eqn:E27; [|destruct (ch =? ord "d") eqn:Ed;
    [|destruct (ch =? ord "y") eqn:Ey;
      [|destruct (_ || _) eqn:Emove]]].
  5: { unf. rewrite finish_valid by by apply in_bounds_valid_pos.
       by eexists. }
  4: { destruct (handle_command_ok self ch typed Hb Hv)
         as (self' & -> & Hb' & Hv' & Hu').
       unf. rewrite finish_valid by by apply in_bounds_valid_pos.
       by eexists. }
  all: apply in_bounds_valid_pos in Hb.
  all: destruct (Hv Hm) as ([al ac] & Ha & aline & Haline & Hac).
  all: destruct self as [f b [y x] m v u]; destruct Hb as (line & Hline & Hx).
  all: pose proof (lookup_lt_Some _ _ _ Hline) as Hy.
  all: pose proof (lookup_lt_Some _ _ _ Haline) as Hal.
  all: unfold anchor_ok; setoid_rewrite in_bounds_valid_pos; unf; subst m v.
  all: unf.
  1, 3: rewrite finish_valid by solve_valid_pos;
        eexists; (split; [reflexivity|]); unf;
        (split; [solve_valid_pos | split; [discriminate | done]]).
  repeat case_decide; unf; unfold getitem; rewrite ?Hline, ?Haline; unf;
    simplify_eq; rewrite ?setitem_lt by done; unf.
  all: rewrite finish_valid by solve_edit_pos.
  all: eexists; (split; [reflexivity|]); unf.
  all: split; [solve_edit_pos | split; [discriminate | done]].
Qed.

Lemma handle_input_ok self ch typed :
  wf self → 0 ≤ ch →
  ∃ self', handle_input self ch typed = Ok (self', true) ∧ wf self'
           ∧ (pending_ok self → pending_ok self')
           ∧ (exits_to_command (mode self) ch = true → mode self' = Command).
Proof.
  intros Hwf Hch. unfold handle_input, pending_ok.
  destruct (mode self) eqn:Hm.
  - destruct Hwf as (Hb & Hu & Hv).
    destruct (handle_command_ok self ch typed Hb Hv)
      as (self' & -> & Hb' & Hv' & Hu').
    exists self'. rewrite Hu'. split; [done|]. split; [|done].
    split; [done|]. split; [by rewrite Hu' | done].
  - destruct (handle_insert_ok self ch Hwf Hm Hch)
      as (self' & -> & Hwf' & Hp & H27).
    exists self'. split; [done|]. split; [done|]. split; [done|].
    simpl. intros H%Z.eqb_eq. auto.
  - destruct Hwf as (Hb & Hu & Hv).
    destruct (handle_visual_ok self ch typed Hb Hv Hm)
      as (self' & -> & Hb' & Hv' & Hu' & Hx).
    exists self'. rewrite Hu'. split; [done|]. split; [|done].
    split; [done|]. split; [by rewrite Hu' | done].
Qed.

(** The state that [Editor.__init__] builds is well formed. *)
Lemma pending_ok_init fname file : pending_ok (init fname file).
Proof. left. unfold init, load_file. by repeat case_match. Qed.

Lemma wf_init fname file : wf (init fname file).
Proof.
  unfold init, load_file. cbn [filename].
  destruct fname as [[|c f]|], file as [[|l ls]|]; unf.
  all: split; [|split; [done | discriminate]].
  all: apply in_bounds_valid_pos; eexists; (split; [reflexivity | simpl; lia]).
Qed.

(** No handler ever returns [False]. *)
Lemma handle_input_true self ch typed self' r :
  handle_input self ch typed = Ok (self', r) → r = true.
Proof.
  unfold handle_input, handle_command, handle_insert, handle_visual.
  destruct (pos self) as [y x]. intros Hrun.
  destruct (mode self);
    repeat match type of Hrun with
    | bind ?m _ = _ => destruct m as [?|?]; cbn [bind] in Hrun
    | (let '(_, _) := ?p in _) = _ => destruct p
    end; by simplify_eq.
Qed.

(** The decoding step changes the pending bytes only. *)
Lemma insert_decode_shape self ch s self1 :
  insert_decode self ch = Ok (s, self1) →
  ∃ u', self1 = set_utf8buffer self u'.
Proof.
  unfold insert_decode. intros Hrun.
  destruct (_ && _); [|simplify_eq; by eexists].
  destruct (bytes _); cbn [bind] in Hrun; [|done].
  destruct (utf8_decode _); simplify_eq; by eexists.
Qed.

(** Whenever a handler returns, the cursor conditions hold again, and the
    anchor is again a position of the buffer while the mode is visual. *)
Lemma handle_input_bounds self ch typed self' r :
  in_bounds self → anchor_ok self →
  handle_input self ch typed = Ok (self', r) →
  in_bounds self' ∧ anchor_ok self'.
Proof.
  intros Hb Hv. unfold handle_input. destruct (mode self) eqn:Hm; intros Hrun.
  - destruct (handle_command_ok self ch typed Hb Hv)
      as (s & E & Hb' & Hv' & _).
    rewrite E in Hrun. by simplify_eq.
  - unfold handle_insert in Hrun.
    destruct (insert_decode self ch) as [[s self1]|] eqn:Hdec; [|done].
    apply insert_decode_shape in Hdec as [u' ->]. cbn [bind] in Hrun.
    destruct (insert_dispatch_ok s (set_utf8buffer self u') ch)
      as (s2 & E & Hb' & Hm' & _); [done..|].
    rewrite E in Hrun. cbn [bind] in Hrun.
    rewrite finish_valid in Hrun by by apply in_bounds_valid_pos.
    simplify_eq. split; [done|]. by intros ?.
  - destruct (handle_visual_ok self ch typed Hb Hv Hm)
      as (s & E & Hb' & Hv' & _).
    rewrite E in Hrun. by simplify_eq.
Qed.

Lemma anchor_ok_init fname file : anchor_ok (init fname file).
Proof. by destruct (wf_init fname file) as (_ & _ & ?). Qed.

(** The same along the events of [main_loop]. *)
Lemma main_loop_bounds events : ∀ self self',
  in_bounds self → anchor_ok self →
  main_loop self events = Ok self' →
  in_bounds self' ∧ anchor_ok self'.
Proof.
  induction events as [|[ch typed] events IH]; intros self self' Hb Hv Hrun.
  - simpl in Hrun. by simplify_eq.
  - cbn [main_loop] in Hrun.
    destruct (handle_input self ch typed) as [[s1 r]|] eqn:E; [|done].
    cbn [bind] in Hrun.
    destruct (handle_input_bounds _ _ _ _ _ Hb Hv E) as [Hb1 Hv1].
    destruct r; [by eapply IH | by simplify_eq].
Qed.

(** ** C2: the cursor conditions through one event *)

(** C2: from every state in which the buffer is not empty, the cursor
    line is an index of the buffer and the cursor column is at most the
    length of that line, the state that the handler returns, for any
    input unit in any of the three modes, satisfies the three conditions
    again; in particular its buffer is not empty.  The state is one of
    the data model: while the mode is visual the anchor is a position of
    the buffer, which the handler keeps as well. *)
Theorem handle_input_keeps_cursor_conditions self ch typed self' continue :
  in_bounds self → anchor_ok self →
  handle_input self ch typed = Ok (self', continue) →
  in_bounds self' ∧ anchor_ok self' ∧ buffer self' ≠ [].
Proof.
  intros Hb Hv Hrun.
  destruct (handle_input_bounds _ _ _ _ _ Hb Hv Hrun) as [Hb' Hv'].
  split; [done|]. split; [done|]. by destruct Hb'.
Qed.

Lemma handle_input_keeps_cursor_conditions_witness :
  let self := mkEditor None [str_of "ab"; str_of "cd"] (1, 0)%nat Visual
                       (Some (0, 1)%nat) [] in
  let self' := mkEditor None [str_of "acd"] (0, 1)%nat Command None [] in
  handle_input self (ord "d") [] = Ok (self', true)
  ∧ in_bounds self' ∧ anchor_ok self' ∧ buffer self' ≠ [].
Proof.
  split; [reflexivity|].
  apply (handle_input_keeps_cursor_conditions
           (mkEditor None [str_of "ab"; str_of "cd"] (1, 0)%nat Visual
                     (Some (0, 1)%nat) [])
           (ord "d") [] _ true).
  - apply in_bounds_valid_pos. exists (str_of "cd").
    split; [reflexivity | simpl; lia].
  - intros _. exists (0, 1)%nat. split; [reflexivity|].
    exists (str_of "ab"). split; [reflexivity | simpl; lia].
  - reflexivity.
Defined.

(** ** C1: the colon command *)

(** C1 (the code departs from it): in command mode ':' calls
    [handle_ex_command], which returns [False] for the lines "q" and "wq",
    but [handle_command] drops that value and returns [True]: the top-level
    handler reports that the session continues, in the same state. *)
Theorem colon_quit_continues self :
  in_bounds self → mode self = Command →
  (handle_ex_command self (str_of "q")).2 = false
  ∧ (handle_ex_command self (str_of "wq")).2 = false
  ∧ handle_input self (ord ":") (str_of "q") = Ok (self, true)
  ∧ handle_input self (ord ":") (str_of "wq") = Ok (self, true).
Proof.
  intros Hb Hm. apply in_bounds_valid_pos in Hb.
  split; [done|]. split; [done|].
  unfold handle_input. rewrite Hm. unfold handle_command.
  destruct (pos self) as [y x] eqn:Hpos. cbn [Z.eqb ord].
  split; simpl; rewrite finish_valid; by rewrite ?Hpos.
Qed.

Lemma colon_quit_continues_witness :
  (handle_ex_command (init None None) (str_of "q")).2 = false
  ∧ (handle_ex_command (init None None) (str_of "wq")).2 = false
  ∧ handle_input (init None None) (ord ":") (str_of "q") = Ok (init None None, true)
  ∧ handle_input (init None None) (ord ":") (str_of "wq") = Ok (init None None, true).
Proof.
  apply (colon_quit_continues (init None None));
    [apply (wf_init None None) | reflexivity].
Defined.

(** ** C6 and C7: deleting the visual selection *)

(** C6: with buffer ["ab"; "cd"], anchor (0,1) and cursor (1,1), 'd' in
    visual mode gives buffer ["ad"], cursor (0,1), command mode and no
    anchor: line 0 keeps its prefix up to column 1 and takes the suffix of
    line 1 from column 1, and line 1, the end line, is removed. *)
Theorem visual_delete_scenario f u typed :
  handle_input
    (mkEditor f [str_of "ab"; str_of "cd"] (1, 1)%nat Visual
              (Some (0, 1)%nat) u)
    (ord "d") typed
  = Ok (mkEditor f [str_of "ad"] (0, 1)%nat Command None u, true).
Proof. reflexivity. Qed.

(** The shape of the buffer after a deletion over several lines: the
    lines before the first stay, the first line keeps its prefix and takes
    the suffix of the last, and the lines after the first up to the last
    one included go. *)
Lemma visual_delete_lines self sl sc el ec first last typed :
  mode self = Visual → visual_start self = Some (sl, sc) →
  pos self = (el, ec) → (sl < el)%nat →
  buffer self !! sl = Some first → buffer self !! el = Some last →
  (sc ≤ length first)%nat →
  handle_input self (ord "d") typed
  = Ok (mkEditor (filename self)
                 (take sl (buffer self)
                  ++ (take sc first ++ drop ec last)
                  :: drop (el + 1) (buffer self))
                 (sl, sc) Command None (utf8buffer self), true).
Proof.
  intros Hm Ha Hpos Hlt Hfirst Hlast Hsc.
  pose proof (lookup_lt_Some _ _ _ Hfirst) as Hsl.
  destruct self as [f b p m v u]. simpl in *. subst p m v.
  unfold handle_input, handle_visual. unf. ords. ztest. cbn [bind].
  case_decide; [lia|]. case_decide; [lia|].
  unfold getitem. rewrite Hfirst, Hlast. unf.
  rewrite setitem_lt by done. unf.
  rewrite finish_valid by solve_edit_pos.
  do 3 f_equal. unfold del_slice. case_decide; [|exfalso; lia].
  rewrite insert_take_drop by done.
  rewrite (cons_middle _ (take sl b)), app_assoc.
  assert (length (take sl b ++ [take sc first ++ drop ec last])
          = (sl + 1)%nat) as Hlen.
  { rewrite length_app, length_take. simpl. lia. }
  rewrite take_app_length' by done.
  rewrite drop_app_ge by lia. rewrite Hlen, drop_drop.
  rewrite <- app_assoc. simpl. do 3 f_equal. lia.
Qed.

Lemma visual_delete_sym self a c typed :
  handle_visual (selecting self a c) (ord "d") typed
  = handle_visual (selecting self c a) (ord "d") typed.
Proof.
  destruct a as [al ac], c as [cl cc]. unfold handle_visual. unf.
  cbn [Z.eqb ord N_of_ascii N.add N.mul Z.of_N Pos.eqb]. simpl (_ =? _).
  cbn iota.
  destruct (decide ((cl < al)%nat ∨ al = cl ∧ (cc < ac)%nat)) as [H1|H1],
           (decide ((al < cl)%nat ∨ cl = al ∧ (ac < cc)%nat)) as [H2|H2];
    try (exfalso; lia).
  3: by assert (al = cl ∧ ac = cc) as [-> ->] by lia.
  all: case_decide; unfold getitem, setitem; repeat case_match; unf.
  all: try reflexivity; try case_decide; reflexivity.
Qed.

(** C7: for every buffer and every two positions [a] and [c] of it,
    'd' in visual mode with anchor [a] and cursor [c] returns the same
    state (so the same buffer and the same cursor) as with anchor [c] and
    cursor [a]. *)
Theorem visual_delete_swap self a c typed :
  valid_pos (buffer self) a → valid_pos (buffer self) c →
  ∃ self',
    handle_input (selecting self a c) (ord "d") typed = Ok (self', true)
    ∧ handle_input (selecting self c a) (ord "d") typed = Ok (self', true).
Proof.
  intros Ha Hc.
  destruct (handle_visual_ok (selecting self a c) (ord "d") typed)
    as (self' & Hrun & _).
  - by apply in_bounds_valid_pos.
  - intros _. by exists a.
  - done.
  - exists self'. split; [done|].
    change (handle_visual (selecting self c a) (ord "d") typed
            = Ok (self', true)).
    by rewrite <- visual_delete_sym.
Qed.

Lemma visual_delete_swap_witness :
  ∃ self',
    handle_input
      (selecting (mkEditor None [str_of "ab"; str_of "cd"] (0, 0)%nat
                           Command None [])
                 (0, 1)%nat (1, 1)%nat) (ord "d") []
    = Ok (self', true)
    ∧ handle_input
        (selecting (mkEditor None [str_of "ab"; str_of "cd"] (0, 0)%nat
                             Command None [])
                   (1, 1)%nat (0, 1)%nat) (ord "d") []
      = Ok (self', true).
Proof.
  apply (visual_delete_swap
           (mkEditor None [str_of "ab"; str_of "cd"] (0, 0)%nat Command None [])
           (0, 1)%nat (1, 1)%nat []).
  - exists (str_of "ab"). split; [reflexivity | simpl; lia].
  - exists (str_of "cd"). split; [reflexivity | simpl; lia].
Defined.

(** ** The decoder *)

Lemma utf8_decode_ascii ch : ch < 0x80 → utf8_decode [ch] = Some [ch].
Proof. intros H. simpl. by ztest. Qed.

Lemma is_cont_range b : is_cont b = true ↔ 0x80 ≤ b ≤ 0xBF.
Proof. unfold is_cont. rewrite andb_true_iff, !Z.leb_le. lia. Qed.

Lemma in_range_spec lo hi b : in_range lo hi b = true ↔ lo ≤ b ≤ hi.
Proof. unfold in_range. rewrite andb_true_iff, !Z.leb_le. lia. Qed.

Lemma second3_ok_cont b0 b1 : second3_ok b0 b1 = true → 0x80 ≤ b1 ≤ 0xBF.
Proof.
  unfold second3_ok. repeat case_match;
    rewrite ?in_range_spec, ?is_cont_range; lia.
Qed.

(** Text of one character that takes three bytes: the first is a lead byte
    of the three-byte form, the other two are continuation bytes, and no
    proper prefix decodes. *)
Lemma utf8_decode_three b1 b2 b3 c :
  utf8_decode [b1; b2; b3] = Some [c] →
  0xE0 ≤ b1 < 0xF0 ∧ 0x80 ≤ b2 ≤ 0xBF ∧ 0x80 ≤ b3 ≤ 0xBF
  ∧ c = cp3 b1 b2 b3
  ∧ utf8_decode [b1] = None ∧ utf8_decode [b1; b2] = None.
Proof.
  intros H. cbn [utf8_decode] in *.
  destruct (Z.ltb_spec b1 0x80);
    [repeat case_match; simplify_eq/=|].
  destruct (Z.ltb_spec b1 0xC2); [done|].
  destruct (Z.ltb_spec b1 0xE0);
    [repeat case_match; simplify_eq/=|].
  destruct (Z.ltb_spec b1 0xF0); [|by repeat case_match].
  destruct (second3_ok b1 b2) eqn:E2; [|done].
  destruct (is_cont b3) eqn:E3; [|done].
  apply second3_ok_cont in E2. apply is_cont_range in E3.
  simpl in H. by simplify_eq.
Qed.

(** A byte below 0x80 at the end decodes on its own: the bytes before it
    decode without it or not at all. *)
Lemma utf8_decode_snoc_ascii a u :
  a < 0x80 →
  utf8_decode (u ++ [a]) = (λ s, s ++ [a]) <$> utf8_decode u.
Proof.
  intros Ha. assert (is_cont a = false) as Hc.
  { unfold is_cont. ztest. done. }
  remember (length u) as n eqn:Hn. revert u Hn.
  induction (lt_wf n) as [n _ IH]. intros u ->.
  assert (∀ t, (length t < length u)%nat →
    utf8_decode (t ++ [a]) = (λ s, s ++ [a]) <$> utf8_decode t) as IH'.
  { intros t Ht. by eapply IH. }
  clear IH.
  destruct u as [|b0 t0]; [cbn [app]; by rewrite utf8_decode_ascii|].
  cbn [app utf8_decode].
  destruct (b0 <? 0x80).
  { rewrite IH' by (simpl; lia). by destruct (utf8_decode t0). }
  destruct (b0 <? 0xC2); [done|].
  destruct (b0 <? 0xE0).
  { destruct t0 as [|b1 t1]; simpl; [by rewrite Hc|].
    destruct (is_cont b1); [|done].
    rewrite IH' by (simpl; lia). by destruct (utf8_decode t1). }
  destruct (b0 <? 0xF0).
  { destruct t0 as [|b1 [|b2 t2]]; simpl; [done| |].
    - by rewrite Hc, andb_false_r.
    - destruct (_ && _); [|done].
      rewrite IH' by (simpl; lia). by destruct (utf8_decode t2). }
  destruct (b0 <? 0xF5); [|done].
  destruct t0 as [|b1 [|b2 [|b3 t3]]]; simpl; [done|done| |].
  - by rewrite Hc, andb_false_r.
  - destruct (_ && _ && _); [|done].
    rewrite IH' by (simpl; lia). by destruct (utf8_decode t3).
Qed.

Lemma set_utf8buffer_id self : set_utf8buffer self (utf8buffer self) = self.
Proof. by destruct self. Qed.

Lemma is_byte_spec b : is_byte b = true ↔ 0 ≤ b < 256.
Proof. unfold is_byte. rewrite andb_true_iff, Z.leb_le, Z.ltb_lt. lia. Qed.

Ltac solve_bytes :=
  unf; cbn [forallb]; rewrite ?(proj2 (is_byte_spec _)) by lia; done.

Lemma bytes_ok l : forallb is_byte l = true → bytes l = Ok l.
Proof. intros H. unfold bytes. by rewrite H. Qed.

(** The decoding step on a byte that is not escape. *)
Lemma insert_decode_byte self ch :
  forallb is_byte (utf8buffer self) = true → 0 ≤ ch < 256 → ch ≠ 27 →
  insert_decode self ch
  = Ok (match utf8_decode (utf8buffer self ++ [ch]) with
        | Some s => (Some s, set_utf8buffer self [])
        | None => (None, set_utf8buffer self (utf8buffer self ++ [ch]))
        end).
Proof.
  intros Hu Hch H27. unfold insert_decode. ztest. cbn [andb negb].
  destruct (bytes_snoc _ ch Hu) as [-> _]; [lia..|]. cbn [bind].
  by destruct (utf8_decode _).
Qed.

(** The dispatch on a byte that is no key of insert mode, without text. *)
Lemma insert_dispatch_none self ch :
  ch ≠ 27 → ch ≠ 10 → ch ≠ KEY_BACKSPACE → ch ≠ 127 →
  insert_dispatch None self ch = Ok self.
Proof.
  intros. unfold insert_dispatch. destruct (pos self). ords. by ztest.
Qed.

(** ** C10: control characters are not inserted *)

(** C10: in insert mode with no pending bytes, an ASCII control character
    (0..31) other than enter (10) and escape (27) leaves the whole state as
    it was: buffer, cursor and mode are unchanged and nothing is pending. *)
Theorem insert_control_ignored self ch typed :
  in_bounds self → mode self = Insert → utf8buffer self = [] →
  0 ≤ ch < 32 → ch ≠ 10 → ch ≠ 27 →
  handle_input self ch typed = Ok (self, true).
Proof.
  intros Hb Hm Hu Hch H10 H27. apply in_bounds_valid_pos in Hb.
  unfold handle_input. rewrite Hm. unfold handle_insert.
  rewrite insert_decode_byte by (rewrite ?Hu; done || lia).
  rewrite Hu. cbn [app]. rewrite utf8_decode_ascii by lia.
  rewrite <- Hu, set_utf8buffer_id. cbn [bind].
  unfold insert_dispatch. destruct (pos self) as [y x] eqn:Hpos.
  unfold isctrl. ords. ztest. cbn [orb andb negb bind].
  rewrite finish_valid; [done | by rewrite Hpos].
Qed.

Lemma insert_control_ignored_witness :
  handle_input (set_mode (init None None) Insert) 9 []
  = Ok (set_mode (init None None) Insert, true).
Proof.
  apply (insert_control_ignored (set_mode (init None None) Insert) 9 []);
    [apply (wf_init None None) | reflexivity | reflexivity | lia | lia | lia].
Defined.

(** ** C8: a character of three bytes, byte by byte *)

(** C8: in insert mode with no pending bytes, the three bytes of a
    character that UTF-8 writes on three bytes, fed one per event, give no
    text and no change of the buffer or the cursor at the first two events
    (the bytes are kept pending) and at the third give the character
    [cp3 b1 b2 b3], which is inserted at the cursor column; the cursor
    moves one column to the right and nothing stays pending. *)
Theorem three_byte_character self b1 b2 b3 c y x line typed :
  mode self = Insert → utf8buffer self = [] →
  pos self = (y, x) → buffer self !! y = Some line → (x ≤ length line)%nat →
  utf8_decode [b1; b2; b3] = Some [c] →
  let s1 := set_utf8buffer self [b1] in
  let s2 := set_utf8buffer self [b1; b2] in
  let s3 :=
    set_pos (set_buffer self
               (<[y := take x line ++ [c] ++ drop x line]> (buffer self)))
            (y, x + 1)%nat in
  insert_decode self b1 = Ok (None, s1)
  ∧ handle_input self b1 typed = Ok (s1, true)
  ∧ insert_decode s1 b2 = Ok (None, s2)
  ∧ handle_input s1 b2 typed = Ok (s2, true)
  ∧ insert_decode s2 b3 = Ok (Some [c], self)
  ∧ handle_input s2 b3 typed = Ok (s3, true)
  ∧ c = cp3 b1 b2 b3.
Proof.
  intros Hm Hu Hpos Hline Hx Hdec s1 s2 s3.
  destruct (utf8_decode_three _ _ _ _ Hdec)
    as (R1 & R2 & R3 & Hc & D1 & D2).
  pose proof (lookup_lt_Some _ _ _ Hline) as Hy.
  assert (valid_pos (buffer self) (pos self)) as Hv.
  { rewrite Hpos. by exists line. }
  assert (insert_decode self b1 = Ok (None, s1)) as E1.
  { rewrite insert_decode_byte by (rewrite ?Hu; done || lia).
    rewrite Hu. cbn [app]. by rewrite D1. }
  assert (insert_decode s1 b2 = Ok (None, s2)) as E2.
  { rewrite insert_decode_byte; [| unfold s1; solve_bytes | lia..].
    unfold s1. unf. cbn [app]. by rewrite D2. }
  assert (insert_decode s2 b3 = Ok (Some [c], self)) as E3.
  { rewrite insert_decode_byte; [| unfold s2; solve_bytes | lia..].
    unfold s2. unf. cbn [app]. rewrite Hdec.
    destruct self. simpl in Hu. by subst. }
  repeat split; try done.
  - unfold handle_input. rewrite Hm. unfold handle_insert. rewrite E1.
    cbn [bind]. rewrite insert_dispatch_none by (ords; lia). cbn [bind].
    by rewrite finish_valid.
  - unfold handle_input. change (mode s1) with (mode self). rewrite Hm.
    unfold handle_insert. rewrite E2.
    cbn [bind]. rewrite insert_dispatch_none by (ords; lia). cbn [bind].
    by rewrite finish_valid.
  - unfold handle_input. change (mode s2) with (mode self). rewrite Hm.
    unfold handle_insert. rewrite E3. cbn [bind].
    unfold insert_dispatch. rewrite Hpos. unfold isctrl. ords. ztest.
    cbn [orb andb negb]. unfold getitem. rewrite Hline. cbn [bind].
    rewrite setitem_lt by done. cbn [bind length].
    rewrite finish_valid; [done|].
    unf. apply valid_pos_setitem; [done|].
    rewrite !length_app, length_take, length_drop. simpl. lia.
Qed.

Lemma three_byte_character_witness :
  let self := set_mode (init None None) Insert in
  insert_decode self 0xE4 = Ok (None, set_utf8buffer self [0xE4])
  ∧ handle_input self 0xE4 [] = Ok (set_utf8buffer self [0xE4], true)
  ∧ insert_decode (set_utf8buffer self [0xE4]) 0xB8
    = Ok (None, set_utf8buffer self [0xE4; 0xB8])
  ∧ handle_input (set_utf8buffer self [0xE4]) 0xB8 []
    = Ok (set_utf8buffer self [0xE4; 0xB8], true)
  ∧ insert_decode (set_utf8buffer self [0xE4; 0xB8]) 0xAD
    = Ok (Some [0x4E2D], self)
  ∧ handle_input (set_utf8buffer self [0xE4; 0xB8]) 0xAD []
    = Ok (set_pos (set_buffer self [[0x4E2D]]) (0, 1)%nat, true)
  ∧ 0x4E2D = cp3 0xE4 0xB8 0xAD.
Proof.
  apply (three_byte_character (set_mode (init None None) Insert)
           0xE4 0xB8 0xAD 0x4E2D 0%nat 0%nat [] []);
    [reflexivity | reflexivity | reflexivity | reflexivity | simpl; lia
    | reflexivity].
Defined.

(** ** C3: bytes that cannot decode *)

Lemma lone_continuation_invalid : structurally_invalid [0x80].
Proof. by intros ext. Qed.

(** C3, as stated, fails: in insert mode with nothing pending, the lone
    continuation byte 0x80, which no further byte makes valid, is not
    dropped: it stays in [utf8buffer].  The letter "a" typed next is
    kept pending behind it and does not reach the buffer. *)
Lemma invalid_byte_not_cleared :
  let self := mkEditor None [str_of "ab"] (0, 0)%nat Insert None [] in
  structurally_invalid (utf8buffer self ++ [0x80])
  ∧ handle_input self 0x80 [] = Ok (set_utf8buffer self [0x80], true)
  ∧ handle_input (set_utf8buffer self [0x80]) (ord "a") []
    = Ok (set_utf8buffer self [0x80; ord "a"], true).
Proof. split; [apply lone_continuation_invalid | by split]. Qed.

(** C3, amended: in insert mode, when the pending bytes with the new byte
    (any byte other than 10, 27 and 127) form a structurally invalid
    sequence, the decoder produces no character and the new byte is
    appended to the pending bytes, which are not cleared; the buffer, the
    cursor and the mode are unchanged and no error is raised. *)
Theorem invalid_bytes_stay_pending self ch typed :
  in_bounds self → mode self = Insert →
  forallb is_byte (utf8buffer self) = true →
  0 ≤ ch < 256 → ch ≠ 10 → ch ≠ 27 → ch ≠ 127 →
  structurally_invalid (utf8buffer self ++ [ch]) →
  insert_decode self ch
  = Ok (None, set_utf8buffer self (utf8buffer self ++ [ch]))
  ∧ handle_input self ch typed
    = Ok (set_utf8buffer self (utf8buffer self ++ [ch]), true).
Proof.
  intros Hb Hm Hu Hch H10 H27 H127 Hinv. apply in_bounds_valid_pos in Hb.
  specialize (Hinv []). rewrite app_nil_r in Hinv.
  assert (insert_decode self ch
          = Ok (None, set_utf8buffer self (utf8buffer self ++ [ch]))) as E.
  { rewrite insert_decode_byte by done. by rewrite Hinv. }
  split; [done|].
  unfold handle_input. rewrite Hm. unfold handle_insert. rewrite E.
  cbn [bind]. rewrite insert_dispatch_none by (ords; lia). cbn [bind].
  by rewrite finish_valid.
Qed.

Lemma invalid_bytes_stay_pending_witness :
  let self := set_mode (init None None) Insert in
  insert_decode self 0x80 = Ok (None, set_utf8buffer self [0x80])
  ∧ handle_input self 0x80 [] = Ok (set_utf8buffer self [0x80], true).
Proof.
  apply (invalid_bytes_stay_pending (set_mode (init None None) Insert) 0x80 []);
    [apply (wf_init None None) | reflexivity | reflexivity | lia | lia | lia | lia
    | apply lone_continuation_invalid].
Defined.

(** ** C4: control values while bytes are pending *)

(** C4, as stated, fails: enter (10) fed while the lead byte 0xE4 is
    pending does not discard it; 10 is appended to the pending bytes (and
    the line is split as enter asks). *)
Lemma enter_keeps_pending :
  let self := mkEditor None [str_of "ab"] (0, 1)%nat Insert None [0xE4] in
  handle_input self 10 []
  = Ok (mkEditor None [str_of "a"; str_of "b"] (1, 0)%nat Insert None
                 [0xE4; 10], true).
Proof. reflexivity. Qed.

(** C4, amended: in insert mode, escape (27) and every unit of 256 or more
    (the named keys) discard the pending bytes, produce no character and
    are handled as if nothing had been pending.  Every other unit below
    128, enter (10) and delete (127) among them, goes through the decoder
    like every byte: fed while the pending bytes do not decode (and those
    that the editor keeps never do, see [main_loop_wf]), it is appended to
    them and nothing is discarded; no character is produced and the key is
    still handled. *)
Theorem control_units_and_pending self ch typed :
  wf self → mode self = Insert →
  (ch = 27 ∨ 256 ≤ ch →
   insert_decode self ch = Ok (None, set_utf8buffer self [])
   ∧ ∃ self', handle_input self ch typed = Ok (self', true)
              ∧ utf8buffer self' = []
              ∧ insert_dispatch None (set_utf8buffer self []) ch = Ok self')
  ∧ (0 ≤ ch < 128 → ch ≠ 27 → utf8_decode (utf8buffer self) = None →
     let pending := utf8buffer self ++ [ch] in
     insert_decode self ch = Ok (None, set_utf8buffer self pending)
     ∧ ∃ self', handle_input self ch typed = Ok (self', true)
                ∧ utf8buffer self' = pending
                ∧ insert_dispatch None (set_utf8buffer self pending) ch
                  = Ok self').
Proof.
  intros (Hb & Hu & _) Hm.
  assert (∀ u, insert_decode self ch = Ok (None, set_utf8buffer self u) →
    ∃ self', handle_input self ch typed = Ok (self', true)
             ∧ utf8buffer self' = u
             ∧ insert_dispatch None (set_utf8buffer self u) ch = Ok self')
    as Hrun.
  { intros u E. unfold handle_input. rewrite Hm. unfold handle_insert.
    rewrite E. cbn [bind].
    destruct (insert_dispatch_ok None (set_utf8buffer self u) ch)
      as (self' & -> & Hb' & _ & Hu' & _); [done..|]. cbn [bind].
    rewrite finish_valid by by apply in_bounds_valid_pos.
    by exists self'. }
  split.
  - intros Hch.
    assert (insert_decode self ch = Ok (None, set_utf8buffer self [])) as E.
    { unfold insert_decode. destruct Hch as [->|Hch]; [done|]. by ztest. }
    split; [done|]. by apply Hrun.
  - intros Hch H27 Hdec pending.
    assert (insert_decode self ch = Ok (None, set_utf8buffer self pending))
      as E.
    { rewrite insert_decode_byte by (done || lia).
      rewrite utf8_decode_snoc_ascii by lia. by rewrite Hdec. }
    split; [done|]. by apply Hrun.
Qed.

Lemma control_units_and_pending_witness :
  let self := mkEditor None [str_of "ab"] (0, 1)%nat Insert None [0xE4] in
  (insert_decode self 27 = Ok (None, set_utf8buffer self [])
   ∧ ∃ self', handle_input self 27 [] = Ok (self', true)
              ∧ utf8buffer self' = []
              ∧ insert_dispatch None (set_utf8buffer self []) 27 = Ok self')
  ∧ (insert_decode self 10 = Ok (None, set_utf8buffer self [0xE4; 10])
     ∧ ∃ self', handle_input self 10 [] = Ok (self', true)
                ∧ utf8buffer self' = [0xE4; 10]
                ∧ insert_dispatch None (set_utf8buffer self [0xE4; 10]) 10
                  = Ok self').
Proof.
  assert (wf (mkEditor None [str_of "ab"] (0, 1)%nat Insert None [0xE4]))
    as Hwf.
  { split; [|split; [reflexivity | discriminate]].
    apply in_bounds_valid_pos. exists (str_of "ab").
    split; [reflexivity | simpl; lia]. }
  split.
  - apply (proj1 (control_units_and_pending _ 27 [] Hwf eq_refl)).
    by left.
  - apply (proj2 (control_units_and_pending _ 10 [] Hwf eq_refl));
      [lia | lia | reflexivity].
Defined.

(** ** C5: the events that can be repeated *)

(** C5, as stated, fails: in command mode on the line "ab" with the
    cursor at (0,0), 'l' once moves to column 1 and 'l' twice to column 2. *)
Lemma motion_not_idempotent :
  let self := mkEditor None [str_of "ab"] (0, 0)%nat Command None [] in
  handle_input self (ord "l") [] = Ok (set_pos self (0, 1)%nat, true)
  ∧ handle_twice self (ord "l") [] = Ok (set_pos self (0, 2)%nat, true).
Proof. by split. Qed.

(** A key that command mode does not know leaves the state as it is. *)
Lemma handle_command_ignored self ch typed :
  in_bounds self →
  ch ≠ ord "i" → ch ≠ ord "a" → ch ≠ ord "v" → ch ≠ ord "h" →
  ch ≠ ord "l" → ch ≠ ord "j" → ch ≠ ord "k" → ch ≠ ord ":" →
  handle_command self ch typed = Ok (self, true).
Proof.
  intros Hb%in_bounds_valid_pos. ords. intros.
  unfold handle_command. destruct (pos self) as [y x] eqn:Hpos.
  ords. ztest. cbn [bind]. rewrite finish_valid; [done | by rewrite Hpos].
Qed.

(** *** What one more event of the same kind does *)

Lemma utf8_decode_nil_inv bs : utf8_decode bs = Some [] → bs = [].
Proof.
  destruct bs as [|b0 t0]; [done|]. cbn [utf8_decode].
  repeat case_match; try done; by destruct (utf8_decode _).
Qed.

Lemma utf8_decode_high ch : 0x80 ≤ ch → utf8_decode [ch] = None.
Proof.
  intros H. cbn [utf8_decode]. rewrite (proj2 (Z.ltb_ge ch 0x80)) by done.
  by repeat case_match.
Qed.

Lemma insert_dispatch_keeps s self ch self' :
  insert_dispatch s self ch = Ok self' →
  utf8buffer self' = utf8buffer self ∧ (ch ≠ 27 → mode self' = mode self).
Proof.
  unfold insert_dispatch, getitem, setitem.
  destruct self as [f b [y x] m v u]. unf. intros Hrun.
  destruct (Z.eqb_spec ch 27).
  { case_decide; by simplify_eq/=. }
  repeat (case_match; unf; simplify_eq); done.
Qed.

Lemma handle_insert_inv self ch s1 r :
  handle_insert self ch = Ok (s1, r) →
  ∃ s u', insert_decode self ch = Ok (s, set_utf8buffer self u')
          ∧ insert_dispatch s (set_utf8buffer self u') ch = Ok s1.
Proof.
  unfold handle_insert. intros Hrun.
  destruct (insert_decode self ch) as [[s self1]|] eqn:Hdec; [|done].
  destruct (insert_decode_shape _ _ _ _ Hdec) as [u' ->].
  cbn [bind] in Hrun.
  destruct (insert_dispatch _ _ _) as [s2|] eqn:Hdis; [|done].
  cbn [bind] in Hrun. destruct (refresh s2); [|done].
  simplify_eq/=. eauto.
Qed.

Lemma insert_decode_inv self ch s u' :
  insert_decode self ch = Ok (s, set_utf8buffer self u') →
  if (ch <? 256) && negb (ch =? 27)
  then 0 ≤ ch
       ∧ match utf8_decode (utf8buffer self ++ [ch]) with
         | Some t => s = Some t ∧ u' = []
         | None => s = None ∧ u' = utf8buffer self ++ [ch]
         end
  else s = None ∧ u' = [].
Proof.
  unfold insert_decode, bytes. destruct (_ && _).
  - destruct (forallb _ _) eqn:Hb; cbn [bind]; [|done].
    rewrite forallb_app in Hb. apply andb_true_iff in Hb as [_ Hb].
    simpl in Hb. rewrite andb_true_r in Hb. apply is_byte_spec in Hb.
    destruct (utf8_decode _); intros [= <- <-]; (split; [lia | done]).
  - by intros [= <- <-].
Qed.


(** In insert mode a byte that is no control character leaves a trace:
    the cursor moves or the pending bytes grow. *)
Lemma insert_visible_changes self ch s1 r :
  in_bounds self → 32 ≤ ch < 256 → ch ≠ 127 →
  handle_insert self ch = Ok (s1, r) → s1 ≠ self.
Proof.
  intros Hb Hch H127 Hrun ->.
  destruct (handle_insert_inv _ _ _ _ Hrun) as (s & u' & Hdec & Hdis).
  apply insert_decode_inv in Hdec.
  rewrite (proj2 (Z.ltb_lt ch 256)), (proj2 (Z.eqb_neq ch 27)) in Hdec
    by lia.
  cbn [andb negb] in Hdec. destruct Hdec as [_ Hdec].
  destruct (utf8_decode _) as [t|] eqn:Ht; destruct Hdec as [-> ->].
  - destruct t as [|c t];
      [apply utf8_decode_nil_inv in Ht; by destruct (utf8buffer self)|].
    apply in_bounds_valid_pos in Hb.
    destruct self as [f b [y x] m v u]. destruct Hb as (line & Hline & Hx).
    pose proof (lookup_lt_Some _ _ _ Hline) as Hy.
    unfold insert_dispatch, isctrl in Hdis. unf. revert Hdis. ords. ztest.
    rewrite andb_false_r. cbn [orb negb]. unfold getitem. rewrite Hline.
    unf. rewrite setitem_lt by done. unf. intros [= _ Hpos]. simpl in Hpos.
    lia.
  - apply insert_dispatch_keeps in Hdis as [Hu _]. unf.
    apply (f_equal length) in Hu. rewrite length_app in Hu. simpl in Hu.
    lia.
Qed.

(** Enter always moves the cursor to the next line. *)
Lemma insert_enter_changes self s1 r :
  handle_insert self 10 = Ok (s1, r) → s1 ≠ self.
Proof.
  intros Hrun ->.
  destruct (handle_insert_inv _ _ _ _ Hrun) as (s & u' & _ & Hdis).
  unfold insert_dispatch in Hdis. destruct self as [f b [y x] m v u]. unf.
  simpl (_ =? _) in Hdis. cbn iota in Hdis.
  destruct (getitem b y); cbn [bind] in Hdis; [|done].
  destruct (setitem _ _ _); cbn [bind] in Hdis; [|done].
  injection Hdis as _ Hpos. lia.
Qed.

(** With bytes pending, a byte always changes them: they are decoded and
    dropped, or they grow. *)
Lemma insert_pending_changes self ch s1 r :
  ch < 256 → ch ≠ 27 → utf8buffer self ≠ [] →
  handle_insert self ch = Ok (s1, r) → s1 ≠ self.
Proof.
  intros Hch H27 Hne Hrun ->.
  destruct (handle_insert_inv _ _ _ _ Hrun) as (s & u' & Hdec & Hdis).
  apply insert_decode_inv in Hdec.
  rewrite (proj2 (Z.ltb_lt ch 256)), (proj2 (Z.eqb_neq ch 27)) in Hdec
    by lia.
  cbn [andb negb] in Hdec. destruct Hdec as [_ Hdec].
  apply insert_dispatch_keeps in Hdis as [Hu _]. unf.
  destruct (utf8_decode _); destruct Hdec as [_ ->]; [done|].
  apply (f_equal length) in Hu. rewrite length_app in Hu. simpl in Hu. lia.
Qed.

(** Backspace twice is backspace once when at most one character is
    before the cursor. *)
Lemma backspace_twice s s' self ch s1 s2 :
  in_bounds self → ch = KEY_BACKSPACE ∨ ch = 127 →
  insert_dispatch s (set_utf8buffer self []) ch = Ok s1 →
  insert_dispatch s' (set_utf8buffer s1 []) ch = Ok s2 →
  (s2 = s1 ↔ ((pos self).2 ≤ 1)%nat).
Proof.
  intros Hb%in_bounds_valid_pos Hch E1 E2.
  destruct self as [f b [y x] m v u]. destruct Hb as (line & Hline & Hx).
  pose proof (lookup_lt_Some _ _ _ Hline) as Hy.
  assert ((ch =? 27) = false ∧ (ch =? 10) = false
          ∧ (ch =? KEY_BACKSPACE) || (ch =? 127) = true) as (T1 & T2 & T3).
  { destruct Hch as [-> | ->]; done. }
  unfold insert_dispatch in E1. unf. rewrite T1, T2, T3 in E1.
  unfold getitem in E1. rewrite Hline in E1. unf.
  rewrite setitem_lt in E1 by done. unf.
  case_decide; injection E1 as <-.
  - unfold insert_dispatch in E2. unf. rewrite T1, T2, T3 in E2.
    unfold getitem in E2. rewrite list_lookup_insert_eq in E2 by done. unf.
    rewrite setitem_lt in E2 by by rewrite length_insert. unf.
    case_decide; injection E2 as <-.
    + split; [intros [= _ ?]; lia | lia].
    + split; [lia | done].
  - unfold insert_dispatch in E2. unf. rewrite T1, T2, T3 in E2.
    rewrite decide_False in E2 by done. injection E2 as <-.
    split; [lia | done].
Qed.

(** A control byte other than enter and escape is not dispatched. *)
Lemma insert_dispatch_ctrl s self ch :
  0 ≤ ch < 32 → ch ≠ 10 → ch ≠ 27 → insert_dispatch s self ch = Ok self.
Proof.
  intros. unfold insert_dispatch, isctrl. destruct (pos self). ords. ztest.
  cbn [orb andb negb]. by repeat case_match.
Qed.

Lemma insert_twice self ch typed s1 r1 s2 r2 :
  in_bounds self → mode self = Insert →
  handle_insert self ch = Ok (s1, r1) →
  handle_input s1 ch typed = Ok (s2, r2) →
  (s2 = s1 ↔ repeatable self ch).
Proof.
  intros Hb Hm E1 E2. unfold repeatable. rewrite Hm.
  destruct (handle_insert_inv _ _ _ _ E1) as (s & u' & Hdec & Hdis).
  apply insert_decode_inv in Hdec.
  destruct (insert_dispatch_ok s (set_utf8buffer self u') ch Hb Hm)
    as (? & Hdis' & Hb1 & _ & _ & H27).
  rewrite Hdis in Hdis'. injection Hdis' as <-.
  destruct (insert_dispatch_keeps _ _ _ _ Hdis) as [Hu1 Hm1]. unf.
  unfold handle_input in E2.
  destruct (decide (ch = 27)) as [->|N27].
  { rewrite H27 in E2 by done.
    rewrite handle_command_ignored in E2 by (ords; done || lia).
    injection E2 as <- _. split; [by left | done]. }
  rewrite Hm1, Hm in E2 by done.
  rewrite (proj2 (Z.eqb_neq ch 27)) in Hdec by done.
  rewrite andb_true_r in Hdec.
  destruct (Z.ltb_spec ch 256) as [Hlt|Hge].
  - destruct Hdec as [Hch Hdec].
    destruct (utf8_decode (utf8buffer self ++ [ch])) as [t|] eqn:Ht;
      destruct Hdec as [-> ->].
    + destruct (decide (ch = 10)) as [->|N10].
      { apply insert_enter_changes in E2.
        split; [done|]. intros [?|[[? _]|[_ [[? _]|[? ?]]]]]; lia. }
      destruct (decide (ch = 127)) as [->|N127].
      { destruct (handle_insert_inv _ _ _ _ E2) as (s' & u'' & Hdec2 & Hdis2).
        apply insert_decode_inv in Hdec2. rewrite Hu1 in Hdec2.
        destruct Hdec2 as [_ [_ ->]].
        rewrite (backspace_twice _ _ _ _ _ _ Hb (or_intror eq_refl)
                   Hdis Hdis2).
        split; [intros; right; right; split; [done | by left]|].
        intros [?|[[? _]|[_ [[_ ?]|[? _]]]]]; done || lia. }
      destruct (Z.ltb_spec ch 32) as [Hc|Hc].
      { rewrite insert_dispatch_ctrl in Hdis by lia. injection Hdis as <-.
        destruct (handle_insert_inv _ _ _ _ E2) as (s' & u'' & Hdec2 & Hdis2).
        apply insert_decode_inv in Hdec2.
        rewrite (proj2 (Z.ltb_lt ch 256)), (proj2 (Z.eqb_neq ch 27)) in Hdec2
          by lia.
        cbn [andb negb] in Hdec2. unf. cbn [app] in Hdec2.
        rewrite utf8_decode_ascii in Hdec2 by lia.
        destruct Hdec2 as [_ [_ ->]].
        rewrite insert_dispatch_ctrl in Hdis2 by lia. injection Hdis2 as <-.
        split; [|done]. intros _. right. right. split; [done|]. right. lia. }
      apply insert_visible_changes in E2; [|done|lia|done].
      split; [done|]. intros [?|[[? _]|[_ [[? _]|[? ?]]]]]; lia.
    + apply insert_pending_changes in E2; [|lia|done|].
      2: { rewrite Hu1. by destruct (utf8buffer self). }
      split; [done|]. intros [?|[[? _]|[? _]]]; done || lia.
  - destruct Hdec as [-> ->].
    destruct (handle_insert_inv _ _ _ _ E2) as (s' & u'' & Hdec2 & Hdis2).
    apply insert_decode_inv in Hdec2.
    rewrite (proj2 (Z.ltb_ge ch 256)) in Hdec2 by done.
    cbn [andb] in Hdec2. destruct Hdec2 as [-> ->].
    destruct (decide (ch = KEY_BACKSPACE)) as [->|Nbs].
    + rewrite (backspace_twice _ _ _ _ _ _ Hb (or_introl eq_refl)
                 Hdis Hdis2).
      split; [intros; right; left; split; [done | done]|].
      intros [?|[[_ H]|[_ [[? _]|[? _]]]]]; [done | by apply H | unfold KEY_BACKSPACE in *; lia..].
    + rewrite insert_dispatch_none in Hdis, Hdis2 by (ords; done || lia).
      injection Hdis as <-. injection Hdis2 as <-.
      split; [|done]. intros _. right. left. split; [lia | done].
Qed.

Lemma settles_other self ch :
  ch ≠ ord "h" → ch ≠ ord "l" → ch ≠ ord "j" → ch ≠ ord "k" →
  settles self ch.
Proof. unfold settles. destruct (pos self). by intros. Qed.

Lemma handle_command_colon self typed :
  in_bounds self → handle_command self (ord ":") typed = Ok (self, true).
Proof.
  intros Hb%in_bounds_valid_pos. unfold handle_command.
  destruct (pos self) as [y x] eqn:Hpos. simpl (_ =? _). cbn iota.
  destruct (handle_ex_command self typed). cbn [bind].
  rewrite finish_valid; [done | by rewrite Hpos].
Qed.

Lemma handle_visual_ignored self ch typed :
  in_bounds self →
  ch ≠ 27 → ch ≠ ord "d" → ch ≠ ord "y" → ch ≠ ord "h" →
  ch ≠ ord "j" → ch ≠ ord "k" → ch ≠ ord "l" →
  handle_visual self ch typed = Ok (self, true).
Proof.
  intros Hb%in_bounds_valid_pos. ords. intros.
  unfold handle_visual. ords. ztest. cbn [orb bind].
  by rewrite finish_valid.
Qed.

(** The four motions, key by key. *)
Lemma handle_command_motion self typed y x line :
  pos self = (y, x) → buffer self !! y = Some line → (x ≤ length line)%nat →
  handle_command self (ord "h") typed = Ok (set_pos self (y, x - 1)%nat, true)
  ∧ handle_command self (ord "l") typed
    = Ok (set_pos self (y, (x + 1) `min` length line)%nat, true)
  ∧ handle_command self (ord "j") typed
    = Ok (match buffer self !! (y + 1)%nat with
          | Some next => set_pos self (y + 1, x `min` length next)%nat
          | None => self
          end, true)
  ∧ handle_command self (ord "k") typed
    = Ok (match y with
          | O => self
          | S y' =>
            match buffer self !! y' with
            | Some prev => set_pos self (y', x `min` length prev)%nat
            | None => self
            end
          end, true).
Proof.
  intros Hpos Hline Hx. destruct self as [f b p m v u]. simpl in *. subst p.
  pose proof (lookup_lt_Some _ _ _ Hline) as Hy.
  unfold handle_command. unf. simpl (_ =? _). cbn iota.
  unfold getitem at 1. rewrite Hline. unf.
  split; [|split; [|split]].
  - case_decide; unf; rewrite finish_valid by solve_valid_pos; [done|].
    by replace x with 0%nat by lia.
  - case_decide; unf; rewrite finish_valid by solve_valid_pos.
    + by replace ((x + 1) `min` length line)%nat with (x + 1)%nat by lia.
    + by replace ((x + 1) `min` length line)%nat with x by lia.
  - case_decide; unf.
    + getitem_lt. unf. by rewrite finish_valid by solve_valid_pos.
    + rewrite lookup_ge_None_2 by lia.
      by rewrite finish_valid by solve_valid_pos.
  - destruct y as [|y']; unf.
    + rewrite decide_False by lia. unf.
      by rewrite finish_valid by solve_valid_pos.
    + rewrite decide_True by lia. unf.
      replace (S y' - 1)%nat with y' by lia.
      getitem_lt. unf. by rewrite finish_valid by solve_valid_pos.
Qed.

Lemma settles_key self :
  (settles self (ord "h") ↔ ((pos self).2 ≤ 1)%nat)
  ∧ (settles self (ord "l") ↔
     ∀ line, buffer self !! (pos self).1 = Some line →
             (length line ≤ (pos self).2 + 1)%nat)
  ∧ (settles self (ord "j") ↔ (length (buffer self) ≤ (pos self).1 + 2)%nat)
  ∧ (settles self (ord "k") ↔ ((pos self).1 ≤ 1)%nat).
Proof.
  unfold settles. destruct (pos self) as [y x]. simpl. ords.
  split_and!;
    (split; [intros (H1 & H2 & H3 & H4); auto
            | intros H; split_and!; intros; done || lia || auto]).
Qed.

Lemma motion_mode self ch typed s1 r1 :
  in_bounds self →
  ch = ord "h" ∨ ch = ord "j" ∨ ch = ord "k" ∨ ch = ord "l" →
  handle_command self ch typed = Ok (s1, r1) → mode s1 = mode self.
Proof.
  intros Hb%in_bounds_valid_pos Hch E1.
  destruct self as [f b [y x] m v u]. destruct Hb as (line & Hline & Hx).
  destruct (handle_command_motion (mkEditor f b (y, x) m v u) typed y x line
              eq_refl Hline Hx) as (Hh & Hl & Hj & Hk).
  destruct Hch as [->|[->|[->| ->]]].
  - rewrite Hh in E1. by injection E1 as <- _.
  - rewrite Hj in E1. injection E1 as <- _. unf.
    by destruct (b !! (y + 1)%nat).
  - rewrite Hk in E1. injection E1 as <- _. unf.
    destruct y as [|y']; [done|]. by destruct (b !! y').
  - rewrite Hl in E1. by injection E1 as <- _.
Qed.

(** A motion twice is the motion once when its first step reaches the
    edge, or was not possible. *)
Lemma motion_twice self ch typed s1 r1 s2 r2 :
  in_bounds self →
  ch = ord "h" ∨ ch = ord "j" ∨ ch = ord "k" ∨ ch = ord "l" →
  handle_command self ch typed = Ok (s1, r1) →
  handle_command s1 ch typed = Ok (s2, r2) →
  (s2 = s1 ↔ settles self ch).
Proof.
  intros Hb%in_bounds_valid_pos Hch E1 E2.
  destruct self as [f b [y x] m v u]. destruct Hb as (line & Hline & Hx).
  unf. pose proof (lookup_lt_Some _ _ _ Hline) as Hy.
  destruct (handle_command_motion (mkEditor f b (y, x) m v u) typed y x line
              eq_refl Hline Hx) as (Hh & Hl & Hj & Hk).
  destruct (settles_key (mkEditor f b (y, x) m v u)) as (Sh & Sl & Sj & Sk).
  unf.
  destruct Hch as [->|[->|[->| ->]]].
  - rewrite Hh in E1. injection E1 as <- <-. unf.
    destruct (handle_command_motion (mkEditor f b (y, x - 1)%nat m v u) typed
                y (x - 1)%nat line eq_refl Hline ltac:(lia)) as (Hh2 & _).
    rewrite Hh2 in E2. injection E2 as <- _. unf.
    rewrite Sh. split; [intros [= ?]; lia | intros; do 2 f_equal; lia].
  - rewrite Hj in E1. injection E1 as <- <-. rewrite Sj.
    destruct (b !! (y + 1)%nat) as [next|] eqn:Hnext; unf.
    + destruct (handle_command_motion
                  (mkEditor f b (y + 1, x `min` length next)%nat m v u) typed
                  (y + 1)%nat (x `min` length next)%nat next
                  eq_refl Hnext ltac:(lia)) as (_ & _ & Hj2 & _).
      rewrite Hj2 in E2. injection E2 as <- _. unf.
      destruct (b !! (y + 1 + 1)%nat) as [n2|] eqn:Hn2; unf.
      * apply lookup_lt_Some in Hn2. split; [intros [= ?]; lia | lia].
      * apply lookup_ge_None in Hn2. split; [lia | done].
    + rewrite Hj in E2. injection E2 as <- _.
      apply lookup_ge_None in Hnext. split; [lia | done].
  - rewrite Hk in E1. injection E1 as <- <-. rewrite Sk.
    destruct y as [|y']; unf.
    { rewrite Hk in E2. injection E2 as <- _. split; [lia | done]. }
    destruct (b !! y') as [prev|] eqn:Hprev; unf.
    + destruct (handle_command_motion
                  (mkEditor f b (y', x `min` length prev)%nat m v u) typed
                  y' (x `min` length prev)%nat prev
                  eq_refl Hprev ltac:(lia)) as (_ & _ & _ & Hk2).
      rewrite Hk2 in E2. injection E2 as <- _. unf.
      destruct y' as [|y'']; unf; [split; [lia | done]|].
      destruct (b !! y'') as [p2|] eqn:Hp2; unf.
      * split; [intros [= ?]; lia | lia].
      * apply lookup_ge_None in Hp2. lia.
    + apply lookup_ge_None in Hprev. lia.
  - rewrite Hl in E1. injection E1 as <- <-. unf.
    destruct (handle_command_motion
                (mkEditor f b (y, (x + 1) `min` length line)%nat m v u) typed
                y ((x + 1) `min` length line)%nat line
                eq_refl Hline ltac:(lia)) as (_ & Hl2 & _).
    rewrite Hl2 in E2. injection E2 as <- _. unf.
    rewrite Sl. split.
    + intros [= ?] line' Hline'. simplify_eq. lia.
    + intros H. specialize (H _ Hline). do 2 f_equal. lia.
Qed.

Lemma command_twice self ch typed s1 r1 s2 r2 :
  in_bounds self → anchor_ok self → mode self = Command →
  handle_command self ch typed = Ok (s1, r1) →
  handle_input s1 ch typed = Ok (s2, r2) →
  (s2 = s1 ↔ repeatable self ch).
Proof.
  intros Hb Hv Hm E1 E2. unfold repeatable. rewrite Hm.
  destruct (handle_command_ok self ch typed Hb Hv) as (? & E & Hb1 & _).
  rewrite E1 in E. injection E as <- ->.
  destruct (decide (ch = ord "i" ∨ ch = ord "a")) as [Hia|Hia].
  { assert (mode s1 = Insert) as Hm1.
    { revert E1. unfold handle_command, getitem.
      destruct self as [f b [y x] m v u]. unf.
      destruct Hia as [-> | ->]; simpl (_ =? _); cbn iota; unf.
      - destruct (refresh _); cbn [bind]; intros; by simplify_eq/=.
      - destruct (b !! y); unf; [|done].
        case_decide; unf; destruct (refresh _); cbn [bind]; intros;
          by simplify_eq/=. }
    unfold handle_input in E2. rewrite Hm1 in E2.
    apply insert_visible_changes in E2; [|done|..].
    - split; [done|]. intros (? & ? & _). by destruct Hia.
    - destruct Hia as [-> | ->]; by vm_compute.
    - destruct Hia as [-> | ->]; by vm_compute. }
  assert (ch ≠ ord "i" ∧ ch ≠ ord "a") as [Ni Na] by tauto.
  destruct (decide (ch = ord "v")) as [->|Nv].
  { assert (mode s1 = Visual) as Hm1.
    { revert E1. unfold handle_command. destruct (pos self). unf.
      simpl (_ =? _). cbn iota. unf.
      destruct (refresh _); cbn [bind]; intros; by simplify_eq/=. }
    unfold handle_input in E2. rewrite Hm1 in E2.
    rewrite handle_visual_ignored in E2 by done.
    injection E2 as <- _. split; [|done]. intros _.
    split; [done|]. split; [done|]. by apply settles_other. }
  destruct (decide (ch = ord "h" ∨ ch = ord "j" ∨ ch = ord "k"
                    ∨ ch = ord "l")) as [Hmove|Hmove].
  { unfold handle_input in E2.
    rewrite (motion_mode _ _ _ _ _ Hb Hmove E1), Hm in E2.
    rewrite (motion_twice _ _ _ _ _ _ _ Hb Hmove E1 E2). tauto. }
  assert (ch ≠ ord "h" ∧ ch ≠ ord "j" ∧ ch ≠ ord "k" ∧ ch ≠ ord "l")
    as (Nh & Nj & Nk & Nl) by tauto.
  assert (handle_command self ch typed = Ok (self, true)) as E.
  { destruct (decide (ch = ord ":")) as [->|Nc];
      [by apply handle_command_colon | by apply handle_command_ignored]. }
  rewrite E in E1. injection E1 as <-.
  unfold handle_input in E2. rewrite Hm, E in E2. injection E2 as <- _.
  split; [|done]. intros _.
  split; [done|]. split; [done|]. by apply settles_other.
Qed.

Lemma visual_twice self ch typed s1 r1 s2 r2 :
  in_bounds self → anchor_ok self → mode self = Visual →
  handle_visual self ch typed = Ok (s1, r1) →
  handle_input s1 ch typed = Ok (s2, r2) →
  (s2 = s1 ↔ repeatable self ch).
Proof.
  intros Hb Hv Hm E1 E2. unfold repeatable. rewrite Hm.
  destruct (handle_visual_ok self ch typed Hb Hv Hm)
    as (? & E & Hb1 & _ & _ & Hexit).
  rewrite E1 in E. injection E as <- ->. simpl in Hexit.
  destruct (decide (ch = 27 ∨ ch = ord "d" ∨ ch = ord "y")) as [Hx|Hx].
  { unfold handle_input in E2. rewrite Hexit in E2.
    2: { destruct Hx as [->|[->| ->]]; done. }
    rewrite handle_command_ignored in E2;
      [|done|destruct Hx as [->|[->| ->]]; done..].
    injection E2 as <- _. split; [|done]. intros _.
    apply settles_other; destruct Hx as [->|[->| ->]]; done. }
  assert (ch ≠ 27 ∧ ch ≠ ord "d" ∧ ch ≠ ord "y") as (N27 & Nd & Ny) by tauto.
  destruct (decide (ch = ord "h" ∨ ch = ord "j" ∨ ch = ord "k"
                    ∨ ch = ord "l")) as [Hmove|Hmove].
  { assert (∀ s, in_bounds s → anchor_ok s →
                 handle_visual s ch typed = handle_command s ch typed) as Hvc.
    { intros s Hs Ha.
      destruct (handle_command_ok s ch typed Hs Ha) as (s' & Es & Hs' & _).
      unfold handle_visual.
      rewrite (proj2 (Z.eqb_neq ch 27)), (proj2 (Z.eqb_neq ch (ord "d"))),
        (proj2 (Z.eqb_neq ch (ord "y"))) by done.
      assert ((ch =? ord "h") || (ch =? ord "j") || (ch =? ord "k")
              || (ch =? ord "l") = true) as ->.
      { destruct Hmove as [->|[->|[->| ->]]]; done. }
      rewrite Es. cbn [bind].
      by rewrite finish_valid by by apply in_bounds_valid_pos. }
    rewrite Hvc in E1 by done.
    destruct (handle_command_ok self ch typed Hb Hv)
      as (? & E & _ & Hv1 & _).
    rewrite E1 in E. injection E as <-.
    unfold handle_input in E2.
    rewrite (motion_mode _ _ _ _ _ Hb Hmove E1), Hm, Hvc in E2 by done.
    by apply (motion_twice _ _ _ _ _ _ _ Hb Hmove E1 E2). }
  assert (ch ≠ ord "h" ∧ ch ≠ ord "j" ∧ ch ≠ ord "k" ∧ ch ≠ ord "l")
    as (Nh & Nj & Nk & Nl) by tauto.
  rewrite handle_visual_ignored in E1 by done. injection E1 as <-.
  unfold handle_input in E2. rewrite Hm in E2.
  rewrite handle_visual_ignored in E2 by done. injection E2 as <- _.
  split; [|done]. intros _. by apply settles_other.
Qed.

(** C5, amended: each operation is deterministic, the handler being a
    function of the state, the input unit and the line typed, but it is
    not idempotent in general: handled twice in succession, an event gives
    the state that it gives handled once exactly when it is [repeatable].
    In command mode that is every key but 'i', 'a' and a motion that can
    still move after its first step; in visual mode every key but such a
    motion; in insert mode escape, the named keys (the backspace key only
    with at most one character before the cursor) and, when the byte
    decodes together with the pending bytes, delete with at most one
    character before the cursor and the control characters other than
    enter.  The state is one of the data model (cursor in bounds, anchor
    a position of the buffer in visual mode) and both runs return. *)
Theorem handled_twice_as_once self ch typed s1 r1 s2 r2 :
  in_bounds self → anchor_ok self →
  handle_input self ch typed = Ok (s1, r1) →
  handle_twice self ch typed = Ok (s2, r2) →
  (s2 = s1 ↔ repeatable self ch).
Proof.
  intros Hb Hv E1 E2. unfold handle_twice in E2. rewrite E1 in E2.
  cbn [bind] in E2. rewrite (handle_input_true _ _ _ _ _ E1) in E2.
  unfold handle_input in E1. destruct (mode self) eqn:Hm.
  - by eapply command_twice.
  - by eapply insert_twice.
  - by eapply visual_twice.
Qed.

Lemma handled_twice_as_once_witness :
  let self := mkEditor None [str_of "ab"] (0, 1)%nat Command None [] in
  let s1 := set_pos self (0, 2)%nat in
  handle_input self (ord "l") [] = Ok (s1, true)
  ∧ handle_twice self (ord "l") [] = Ok (s1, true)
  ∧ repeatable self (ord "l").
Proof.
  split; [reflexivity|]. split; [reflexivity|].
  assert (in_bounds (mkEditor None [str_of "ab"] (0, 1)%nat Command None []))
    as Hb.
  { apply in_bounds_valid_pos. exists (str_of "ab").
    split; [reflexivity | simpl; lia]. }
  apply (proj1 (handled_twice_as_once
                  (mkEditor None [str_of "ab"] (0, 1)%nat Command None [])
                  (ord "l") []
                  (mkEditor None [str_of "ab"] (0, 2)%nat Command None [])
                  true
                  (mkEditor None [str_of "ab"] (0, 2)%nat Command None [])
                  true Hb ltac:(discriminate) eq_refl eq_refl)).
  reflexivity.
Defined.

(** ** C9: from a screen column to a buffer column *)

Lemma foldl_width_from a cs :
  foldl (λ x c, x + width c) a cs = a + display_width cs.
Proof.
  unfold display_width. revert a.
  induction cs as [|c cs IH]; intros a; simpl; [lia|].
  rewrite (IH (a + width c)), (IH (0 + width c)). lia.
Qed.

Lemma display_width_cons c cs :
  display_width (c :: cs) = width c + display_width cs.
Proof. unfold display_width at 1. simpl. apply foldl_width_from. Qed.

Lemma width_pos c : 0 < width c.
Proof. unfold width. case_match; lia. Qed.

Lemma display_width_nonneg cs : 0 ≤ display_width cs.
Proof.
  induction cs as [|c cs IH]; [done|].
  rewrite display_width_cons. pose proof (width_pos c). lia.
Qed.

Lemma display_width_take_le i cs :
  display_width (take i cs) ≤ display_width cs.
Proof.
  revert i. induction cs as [|c cs IH]; intros [|i]; simpl; try done.
  - apply display_width_nonneg.
  - rewrite !display_width_cons. specialize (IH i). lia.
Qed.

(** The walk stops at the first character before which the width walked
    reaches the target. *)
Lemma pos2buffer_loop_found x cs k i p j :
  (j < length cs)%nat →
  x ≤ p + display_width (take j cs) →
  (∀ j', (j' < j)%nat → p + display_width (take j' cs) < x) →
  pos2buffer_loop x cs k i p = k + Z.of_nat j.
Proof.
  revert k i p j. induction cs as [|c cs IH]; intros k i p j Hj Hreach Hmin;
    [simpl in Hj; lia|].
  destruct j as [|j]; simpl in *.
  - rewrite (proj2 (Z.geb_le _ _)) by (unfold display_width in Hreach;
      simpl in Hreach; lia). lia.
  - specialize (Hmin 0%nat ltac:(lia)) as Hp. simpl in Hp.
    unfold display_width in Hp. simpl in Hp.
    destruct (p >=? x) eqn:E; [apply Z.geb_le in E; lia|].
    rewrite display_width_cons in Hreach.
    rewrite (IH (k + 1) k (p + width c) j); [lia | lia | lia |].
    intros j' Hj'. specialize (Hmin (S j') ltac:(lia)). simpl in Hmin.
    rewrite display_width_cons in Hmin. lia.
Qed.

(** The walk runs off the line when the target is not reached before any
    character; the loop variable is then the last index. *)
Lemma pos2buffer_loop_end x cs k i p :
  (∀ j, (j < length cs)%nat → p + display_width (take j cs) < x) →
  pos2buffer_loop x cs k i p
  = (match cs with [] => i | _ => k + Z.of_nat (length cs) - 1 end)
    + (x - (p + display_width cs)) + 1.
Proof.
  revert k i p. induction cs as [|c cs IH]; intros k i p Hlt.
  - simpl. unfold display_width. simpl. lia.
  - pose proof (Hlt 0%nat ltac:(simpl; lia)) as Hp.
    unfold display_width in Hp. simpl in Hp.
    cbn [pos2buffer_loop].
    destruct (p >=? x) eqn:E; [apply Z.geb_le in E; lia|].
    rewrite IH.
    + rewrite display_width_cons. destruct cs; simpl length; lia.
    + intros j Hj. specialize (Hlt (S j) ltac:(simpl; lia)). simpl in Hlt.
      rewrite display_width_cons in Hlt. lia.
Qed.

(** C9, as stated, fails outside its two cases.  On the empty line with
    target 0, which does not exceed the total width 0, the result is 1.  On
    the line of the one wide character U+4E2D with target 1, which does
    not exceed the total width 2, the result is 0 although no width has
    been walked before index 0.  (Counting the width through the character
    itself does not help: on "ab" with target 1 the width reaches 1 with
    the character of index 0 and the result is 1.) *)
Lemma pos2buffer_outside_stated_cases :
  let self := mkEditor None [[]; [0x4E2D]; str_of "ab"] (0, 0)%nat Command
                       None [] in
  (display_width [] = 0 ∧ pos2buffer self 0 0 = Ok 1)
  ∧ (display_width [0x4E2D] = 2
     ∧ display_width (take 0 [0x4E2D]) = 0
     ∧ pos2buffer self 1 1 = Ok 0)
  ∧ (display_width (take 1 (str_of "ab")) = 1
     ∧ pos2buffer self 2 1 = Ok 1).
Proof. by repeat split. Qed.

(** C9, amended: for every line that is not empty and every target column
    [x], [pos2buffer] returns the least index [i] of a character of the
    line such that the characters before [i] have a summed width of [x] or
    more, when there is one; when there is none it returns
    [lastIndex + (x - totalWidth) + 1], and this covers every [x] that
    exceeds the total width. *)
Theorem pos2buffer_column self y x line :
  buffer self !! y = Some line → line ≠ [] →
  (∀ i, (i < length line)%nat →
        x ≤ display_width (take i line) →
        (∀ j, (j < i)%nat → display_width (take j line) < x) →
        pos2buffer self y x = Ok (Z.of_nat i))
  ∧ ((∀ i, (i < length line)%nat → display_width (take i line) < x) →
     pos2buffer self y x
     = Ok (Z.of_nat (length line - 1) + (x - display_width line) + 1))
  ∧ (display_width line < x →
     pos2buffer self y x
     = Ok (Z.of_nat (length line - 1) + (x - display_width line) + 1)).
Proof.
  intros Hline Hne. unfold pos2buffer, getitem. rewrite Hline. cbn [bind].
  assert ((∀ i, (i < length line)%nat → display_width (take i line) < x) →
    Ok (pos2buffer_loop x line 0 0 0)
    = Ok (Z.of_nat (length line - 1) + (x - display_width line) + 1))
    as Hend.
  { intros Hlt. rewrite pos2buffer_loop_end by (intros; rewrite Z.add_0_l; auto).
    destruct line as [|c cs]; [done|]. f_equal. simpl length. lia. }
  split; [|split; [done|]].
  - intros i Hi Hreach Hmin. f_equal.
    rewrite (pos2buffer_loop_found x line 0 0 0 i); [lia | done | lia |].
    intros j Hj. specialize (Hmin j Hj). lia.
  - intros Hx. apply Hend. intros i _.
    pose proof (display_width_take_le i line). lia.
Qed.

Lemma pos2buffer_column_witness :
  let self := mkEditor None [str_of "ab"] (0, 0)%nat Command None [] in
  pos2buffer self 0 1 = Ok 1 ∧ pos2buffer self 0 5 = Ok (1 + (5 - 2) + 1).
Proof.
  pose proof (pos2buffer_column
                (mkEditor None [str_of "ab"] (0, 0)%nat Command None [])
                0%nat 1 (str_of "ab") eq_refl ltac:(discriminate)) as H1.
  pose proof (pos2buffer_column
                (mkEditor None [str_of "ab"] (0, 0)%nat Command None [])
                0%nat 5 (str_of "ab") eq_refl ltac:(discriminate)) as H5.
  split.
  - apply (proj1 H1 1%nat); [simpl; lia | vm_compute; discriminate |].
    intros [|j] Hj; [vm_compute; reflexivity | lia].
  - apply (proj2 (proj2 H5)). vm_compute. reflexivity.
Defined.

(** * Further properties of the code *)

(** ** Motions *)

(** X2: in command mode and in visual mode alike, the motions 'h', 'j',
    'k' and 'l' change nothing but the cursor, which stays a position of
    the buffer: buffer, mode, anchor, pending bytes and file name are as
    before. *)
Theorem motion_moves_cursor_only self ch typed :
  in_bounds self → mode self ≠ Insert →
  ch = ord "h" ∨ ch = ord "j" ∨ ch = ord "k" ∨ ch = ord "l" →
  ∃ p, handle_input self ch typed = Ok (set_pos self p, true)
       ∧ valid_pos (buffer self) p.
Proof.
  intros Hb Hm Hch. apply in_bounds_valid_pos in Hb.
  assert (∃ p, handle_command self ch typed = Ok (set_pos self p, true)
               ∧ valid_pos (buffer self) p) as (p & E & Hp).
  { destruct self as [f b [y x] m v u]. destruct Hb as (line & Hline & Hx).
    pose proof (lookup_lt_Some _ _ _ Hline) as Hy.
    unfold handle_command. unf. revert Hch. ords. intros Hch.
    unfold getitem at 1 2. rewrite Hline.
    destruct Hch as [->|[->|[->| ->]]]; simpl;
      repeat case_decide; unf; try getitem_lt; unf.
    all: rewrite finish_valid by solve_valid_pos.
    all: eexists; (split; [reflexivity|]); solve_valid_pos. }
  unfold handle_input. destruct (mode self) eqn:Em; [by exists p|done|].
  exists p. split; [|done]. unfold handle_visual.
  assert ((ch =? 27) = false ∧ (ch =? ord "d") = false
          ∧ (ch =? ord "y") = false
          ∧ (ch =? ord "h") || (ch =? ord "j") || (ch =? ord "k")
            || (ch =? ord "l") = true) as (-> & -> & -> & ->).
  { revert Hch. ords. intros [->|[->|[->| ->]]]; done. }
  rewrite E. cbn [bind]. by rewrite finish_valid.
Qed.

Lemma motion_moves_cursor_only_witness :
  ∃ p, handle_input
         (mkEditor None [str_of "ab"; str_of "c"] (0, 2)%nat Visual
                   (Some (0, 1)%nat) [])
         (ord "j") []
       = Ok (set_pos (mkEditor None [str_of "ab"; str_of "c"] (0, 2)%nat
                               Visual (Some (0, 1)%nat) []) p, true)
       ∧ valid_pos [str_of "ab"; str_of "c"] p.
Proof.
  apply (motion_moves_cursor_only
           (mkEditor None [str_of "ab"; str_of "c"] (0, 2)%nat Visual
                     (Some (0, 1)%nat) [])
           (ord "j") []).
  - apply in_bounds_valid_pos. exists (str_of "ab").
    split; [reflexivity | simpl; lia].
  - discriminate.
  - right. left. reflexivity.
Defined.

(** X3: in command mode 'l' followed by 'h' brings the state back when the
    cursor is not at the end of its line, and 'h' followed by 'l' brings
    it back when the cursor is not in column 0. *)
Theorem left_right_round_trip self y x line :
  mode self = Command → pos self = (y, x) →
  buffer self !! y = Some line → (x ≤ length line)%nat →
  ((x < length line)%nat →
   main_loop self (keys [ord "l"; ord "h"]) = Ok self)
  ∧ ((0 < x)%nat →
     main_loop self (keys [ord "h"; ord "l"]) = Ok self).
Proof.
  intros Hm Hpos Hline Hx.
  destruct self as [f b p m v u]. simpl in *. subst p m.
  pose proof (lookup_lt_Some _ _ _ Hline) as Hy.
  split; intros Hlt; cbn [keys map main_loop]; unfold handle_input; unf;
    unfold handle_command; unf; ords; simpl (_ =? _); cbn iota;
    unfold getitem; rewrite ?Hline; unf.
  - rewrite decide_True by done. unf.
    rewrite finish_valid by solve_valid_pos. unf.
    rewrite decide_True by lia. unf.
    replace (x + 1 - 1)%nat with x by lia.
    by rewrite finish_valid by solve_valid_pos.
  - rewrite decide_True by done. unf.
    rewrite finish_valid by solve_valid_pos. unf.
    rewrite Hline. unf. rewrite decide_True by lia. unf.
    replace (x - 1 + 1)%nat with x by lia.
    by rewrite finish_valid by solve_valid_pos.
Qed.

Lemma left_right_round_trip_witness :
  let self := mkEditor None [str_of "ab"] (0, 1)%nat Command None [] in
  main_loop self (keys [ord "l"; ord "h"]) = Ok self
  ∧ main_loop self (keys [ord "h"; ord "l"]) = Ok self.
Proof.
  pose proof (left_right_round_trip
                (mkEditor None [str_of "ab"] (0, 1)%nat Command None [])
                0%nat 1%nat (str_of "ab") eq_refl eq_refl eq_refl
                ltac:(simpl; lia)) as [H1 H2].
  split; [apply H1 | apply H2]; simpl; lia.
Defined.

(** X4: in command mode 'j' followed by 'k' comes back to the same line,
    but the column is not remembered: it is the smaller of the column and
    the length of the line below. *)
Theorem down_up_clamps_column self y x line next :
  mode self = Command → pos self = (y, x) →
  buffer self !! y = Some line → (x ≤ length line)%nat →
  buffer self !! (y + 1)%nat = Some next →
  main_loop self (keys [ord "j"; ord "k"])
  = Ok (set_pos self (y, x `min` length next)%nat).
Proof.
  intros Hm Hpos Hline Hx Hnext.
  destruct self as [f b p m v u]. simpl in *. subst p m.
  pose proof (lookup_lt_Some _ _ _ Hnext) as Hy.
  cbn [keys map main_loop]. unfold handle_input. unf.
  unfold handle_command. unf. ords. simpl (_ =? _). cbn iota.
  rewrite decide_True by lia. unfold getitem. rewrite Hnext. unf.
  rewrite finish_valid by solve_valid_pos. unf.
  rewrite decide_True by lia.
  replace (y + 1 - 1)%nat with y by lia. rewrite Hline. unf.
  replace ((x `min` length next) `min` length line)%nat
    with (x `min` length next)%nat by lia.
  by rewrite finish_valid by solve_valid_pos.
Qed.

Lemma down_up_clamps_column_witness :
  let self := mkEditor None [str_of "abc"; str_of "d"] (0, 3)%nat Command
                       None [] in
  main_loop self (keys [ord "j"; ord "k"]) = Ok (set_pos self (0, 1)%nat).
Proof.
  apply (down_up_clamps_column
           (mkEditor None [str_of "abc"; str_of "d"] (0, 3)%nat Command
                     None [])
           0%nat 3%nat (str_of "abc") (str_of "d"));
    [reflexivity | reflexivity | reflexivity | simpl; lia | reflexivity].
Defined.

(** ** Editing in insert mode *)

(** X5: enter in insert mode (nothing pending) splits the line of the
    cursor at the cursor column: the lines before and after are kept, the
    buffer has one line more, the cursor is at the start of the new line,
    and no character is lost or added (the two halves joined are the old
    line). *)
Theorem enter_splits_line self y x line typed :
  mode self = Insert → utf8buffer self = [] → pos self = (y, x) →
  buffer self !! y = Some line →
  let b' := take y (buffer self)
            ++ take x line :: drop x line :: drop (S y) (buffer self) in
  handle_input self 10 typed
  = Ok (set_pos (set_buffer self b') (y + 1, 0)%nat, true)
  ∧ length b' = S (length (buffer self))
  ∧ concat b' = concat (buffer self).
Proof.
  intros Hm Hu Hpos Hline b'.
  pose proof (lookup_lt_Some _ _ _ Hline) as Hy.
  assert (b' = list_insert_at (<[y:=take x line]> (buffer self)) (y + 1)
                              (drop x line)) as Hb'.
  { unfold b', list_insert_at. rewrite insert_take_drop by done.
    set (l := take y (buffer self)). set (r := drop (S y) (buffer self)).
    assert (length (l ++ [take x line]) = (y + 1)%nat) as Hlen
      by (unfold l; rewrite length_app, length_take; simpl; lia).
    replace (l ++ take x line :: r) with ((l ++ [take x line]) ++ r)
      by (by rewrite <- app_assoc).
    rewrite take_app_length' by done. rewrite drop_app_length' by done.
    by rewrite <- app_assoc. }
  split; [|split].
  - destruct self as [f b p m v u]. simpl in *. subst p m u.
    unfold handle_input, handle_insert. unf.
    rewrite insert_decode_byte by (done || lia). unf. cbn [app].
    rewrite utf8_decode_ascii by lia. unf.
    unfold insert_dispatch. unf. simpl (_ =? _). cbn iota.
    unfold getitem. rewrite Hline. unf. rewrite setitem_lt by done. unf.
    rewrite <- Hb'.
    rewrite finish_valid; [done|]. unf. rewrite Hb'.
    by apply valid_pos_split.
  - unfold b'. rewrite length_app, length_take. simpl. rewrite length_drop.
    lia.
  - transitivity
      (concat (take y (buffer self) ++ line :: drop (S y) (buffer self)));
      [|by rewrite take_drop_middle].
    unfold b'. rewrite !concat_app. simpl.
    by rewrite (app_assoc (take x line)), take_drop.
Qed.

Lemma enter_splits_line_witness :
  let self := mkEditor None [str_of "ab"; str_of "cd"] (0, 1)%nat Insert
                       None [] in
  let b' := [str_of "a"; str_of "b"; str_of "cd"] in
  handle_input self 10 [] = Ok (set_pos (set_buffer self b') (1, 0)%nat, true)
  ∧ length b' = 3%nat
  ∧ concat b' = concat (buffer self).
Proof.
  apply (enter_splits_line
           (mkEditor None [str_of "ab"; str_of "cd"] (0, 1)%nat Insert None [])
           0%nat 1%nat (str_of "ab") []); reflexivity.
Defined.

(** The state after a printable ASCII character typed with nothing
    pending. *)
Lemma type_ascii self y x line ch typed :
  mode self = Insert → utf8buffer self = [] → pos self = (y, x) →
  buffer self !! y = Some line → (x ≤ length line)%nat →
  32 ≤ ch < 127 →
  handle_input self ch typed
  = Ok (set_pos (set_buffer self
                   (<[y:=take x line ++ [ch] ++ drop x line]> (buffer self)))
                (y, x + 1)%nat, true).
Proof.
  intros Hm Hu Hpos Hline Hx Hch.
  pose proof (lookup_lt_Some _ _ _ Hline) as Hy.
  destruct self as [f b p m v u]. simpl in *. subst p m u.
  unfold handle_input, handle_insert. unf.
  rewrite insert_decode_byte by (done || lia). unf. cbn [app].
  rewrite utf8_decode_ascii by lia. unf.
  unfold insert_dispatch, isctrl. unf. ords. ztest. cbn [orb andb negb].
  unfold getitem. rewrite Hline. unf. rewrite setitem_lt by done. unf.
  rewrite finish_valid; [done|]. unf. apply valid_pos_setitem; [done|].
  rewrite !length_app, length_take, length_drop. simpl. lia.
Qed.

(** X6: in insert mode with nothing pending, a printable ASCII character
    followed by backspace (the code 127 or the key [KEY_BACKSPACE]) brings
    the state back: buffer and cursor are as before. *)
Theorem type_then_backspace self y x line ch bs :
  mode self = Insert → utf8buffer self = [] → pos self = (y, x) →
  buffer self !! y = Some line → (x ≤ length line)%nat →
  32 ≤ ch < 127 → bs = 127 ∨ bs = KEY_BACKSPACE →
  main_loop self (keys [ch; bs]) = Ok self.
Proof.
  intros Hm Hu Hpos Hline Hx Hch Hbs.
  pose proof (lookup_lt_Some _ _ _ Hline) as Hy.
  cbn [keys map main_loop].
  rewrite (type_ascii self y x line ch []) by done. cbn [bind].
  destruct self as [f b p m v u]. simpl in *. subst p m u.
  unfold handle_input, handle_insert. unf.
  assert (insert_decode
            (mkEditor f (<[y:=take x line ++ ch :: drop x line]> b)
                      (y, x + 1)%nat Insert v []) bs
          = Ok (if bs =? 127 then Some [127] else None,
                mkEditor f (<[y:=take x line ++ ch :: drop x line]> b)
                         (y, x + 1)%nat Insert v [])) as ->.
  { destruct Hbs as [-> | ->]; reflexivity. }
  cbn [bind]. unfold insert_dispatch. unf.
  assert ((bs =? 27) = false ∧ (bs =? 10) = false
          ∧ (bs =? KEY_BACKSPACE) || (bs =? 127) = true) as (-> & -> & ->).
  { destruct Hbs as [-> | ->]; done. }
  rewrite decide_True by lia. unfold getitem.
  rewrite list_lookup_insert_eq by done. unf.
  rewrite setitem_lt by (by rewrite length_insert). unf.
  rewrite list_insert_insert_eq.
  replace (x + 1 - 1)%nat with x by lia.
  assert (take x (take x line ++ ch :: drop x line)
          ++ drop (x + 1) (take x line ++ ch :: drop x line) = line) as ->.
  { rewrite take_app_length' by (rewrite length_take; lia).
    rewrite (cons_middle ch), app_assoc.
    rewrite drop_app_length' by (rewrite length_app, length_take; simpl; lia).
    apply take_drop. }
  rewrite list_insert_id by done.
  by rewrite finish_valid by solve_valid_pos.
Qed.

Lemma type_then_backspace_witness :
  let self := mkEditor None [str_of "ab"] (0, 1)%nat Insert None [] in
  main_loop self (keys [ord "x"; KEY_BACKSPACE]) = Ok self.
Proof.
  apply (type_then_backspace
           (mkEditor None [str_of "ab"] (0, 1)%nat Insert None [])
           0%nat 1%nat (str_of "ab") (ord "x") KEY_BACKSPACE);
    [reflexivity | reflexivity | reflexivity | reflexivity | simpl; lia
    | split; [vm_compute; discriminate | reflexivity]
    | right; reflexivity].
Defined.

(** X7: backspace in insert mode (nothing pending) removes the character
    before the cursor and moves the cursor one column to the left; in
    column 0 it leaves the state as it is, on whatever line: two lines are
    never joined and the number of lines does not change. *)
Theorem backspace_deletes_before_cursor self y x line bs typed :
  mode self = Insert → utf8buffer self = [] → pos self = (y, x) →
  buffer self !! y = Some line → (x ≤ length line)%nat →
  bs = 127 ∨ bs = KEY_BACKSPACE →
  handle_input self bs typed
  = Ok (if decide (x = 0)%nat then self
        else set_pos (set_buffer self
                        (<[y:=take (x - 1) line ++ drop x line]>
                           (buffer self)))
                     (y, x - 1)%nat, true).
Proof.
  intros Hm Hu Hpos Hline Hx Hbs.
  pose proof (lookup_lt_Some _ _ _ Hline) as Hy.
  destruct self as [f b p m v u]. simpl in *. subst p m u.
  unfold handle_input, handle_insert. unf.
  assert (insert_decode (mkEditor f b (y, x) Insert v []) bs
          = Ok (if bs =? 127 then Some [127] else None,
                mkEditor f b (y, x) Insert v [])) as ->.
  { destruct Hbs as [-> | ->]; reflexivity. }
  cbn [bind]. unfold insert_dispatch. unf.
  assert ((bs =? 27) = false ∧ (bs =? 10) = false
          ∧ (bs =? KEY_BACKSPACE) || (bs =? 127) = true) as (-> & -> & ->).
  { destruct Hbs as [-> | ->]; done. }
  destruct (decide (x = 0)%nat) as [->|Hne].
  - rewrite decide_False by lia. unf.
    by rewrite finish_valid by solve_valid_pos.
  - rewrite decide_True by lia. unfold getitem. rewrite Hline. unf.
    rewrite setitem_lt by done. unf.
    rewrite finish_valid; [done|]. unf. apply valid_pos_setitem; [done|].
    rewrite length_app, length_take, length_drop. lia.
Qed.

Lemma backspace_deletes_before_cursor_witness :
  let self := mkEditor None [str_of "ab"; str_of "cd"] (1, 0)%nat Insert
                       None [] in
  handle_input self 127 [] = Ok (self, true).
Proof.
  apply (backspace_deletes_before_cursor
           (mkEditor None [str_of "ab"; str_of "cd"] (1, 0)%nat Insert None [])
           1%nat 0%nat (str_of "cd") 127 []);
    [reflexivity | reflexivity | reflexivity | reflexivity | simpl; lia
    | left; reflexivity].
Defined.

(** X8: from command mode (nothing pending), 'i' followed by escape moves
    the cursor one column to the left when it can; 'a' followed by escape
    leaves the cursor where it was, except at the end of the line, where
    it also moves one column to the left.  Nothing else changes. *)
Theorem insert_then_escape self y x line :
  mode self = Command → utf8buffer self = [] → pos self = (y, x) →
  buffer self !! y = Some line → (x ≤ length line)%nat →
  main_loop self (keys [ord "i"; 27]) = Ok (set_pos self (y, x - 1)%nat)
  ∧ main_loop self (keys [ord "a"; 27])
    = Ok (set_pos self
            (y, if decide (x < length line)%nat then x else (x - 1)%nat)).
Proof.
  intros Hm Hu Hpos Hline Hx.
  destruct self as [f b p m v u]. simpl in *. subst p m u.
  split; cbn [keys map main_loop]; unfold handle_input; unf;
    unfold handle_command; unf; ords; simpl (_ =? _); cbn iota; unf.
  - rewrite finish_valid by solve_valid_pos. unf.
    unfold handle_insert, insert_decode. unf. simpl (_ && _). unf.
    unfold insert_dispatch. unf. simpl (_ =? _). cbn iota.
    destruct (decide (0 < x)%nat); unf.
    + by rewrite finish_valid by solve_valid_pos.
    + rewrite finish_valid by solve_valid_pos.
      by replace (x - 1)%nat with x by lia.
  - unfold getitem. rewrite Hline. unf.
    destruct (decide (x < length line)%nat); unf.
    + rewrite finish_valid by solve_valid_pos. unf.
      unfold handle_insert, insert_decode. unf. simpl (_ && _). unf.
      unfold insert_dispatch. unf. simpl (_ =? _). cbn iota.
      rewrite decide_True by lia. unf.
      replace (x + 1 - 1)%nat with x by lia.
      by rewrite finish_valid by solve_valid_pos.
    + rewrite finish_valid by solve_valid_pos. unf.
      unfold handle_insert, insert_decode. unf. simpl (_ && _). unf.
      unfold insert_dispatch. unf. simpl (_ =? _). cbn iota.
      destruct (decide (0 < x)%nat); unf.
      * by rewrite finish_valid by solve_valid_pos.
      * rewrite finish_valid by solve_valid_pos.
        by replace (x - 1)%nat with x by lia.
Qed.

Lemma insert_then_escape_witness :
  let self := mkEditor None [str_of "ab"] (0, 1)%nat Command None [] in
  main_loop self (keys [ord "i"; 27]) = Ok (set_pos self (0, 0)%nat)
  ∧ main_loop self (keys [ord "a"; 27]) = Ok self.
Proof.
  apply (insert_then_escape
           (mkEditor None [str_of "ab"] (0, 1)%nat Command None [])
           0%nat 1%nat (str_of "ab"));
    [reflexivity | reflexivity | reflexivity | reflexivity | simpl; lia].
Defined.

(** ** Visual mode *)

(** The deletion inside one line, whichever of anchor and cursor comes
    first. *)
Lemma visual_delete_in_line self y a c line typed :
  buffer self !! y = Some line →
  (a ≤ length line)%nat → (c ≤ length line)%nat →
  handle_input (selecting self (y, a) (y, c)) (ord "d") typed
  = Ok (mkEditor (filename self)
                 (<[y:=take (a `min` c) line ++ drop (a `max` c) line]>
                    (buffer self))
                 (y, a `min` c)%nat Command None (utf8buffer self), true).
Proof.
  intros Hline Ha Hc. pose proof (lookup_lt_Some _ _ _ Hline) as Hy.
  destruct self as [f b p m v u].
  unfold handle_input, handle_visual. unf. ords. simpl (_ =? _). cbn iota.
  unf. destruct (decide (_ ∨ _)) as [Hsw|Hsw]; unf.
  - rewrite decide_True by done. unfold getitem. rewrite Hline. unf.
    rewrite setitem_lt by done. unf.
    replace (a `min` c)%nat with c by lia.
    replace (a `max` c)%nat with a by lia.
    rewrite finish_valid; [done|]. solve_edit_pos.
  - rewrite decide_True by done. unfold getitem. rewrite Hline. unf.
    rewrite setitem_lt by done. unf.
    replace (a `min` c)%nat with a by lia.
    replace (a `max` c)%nat with c by lia.
    rewrite finish_valid; [done|]. solve_edit_pos.
Qed.

(** X9: 'd' in visual mode with anchor and cursor on the same line removes
    the characters between the two columns, whichever comes first, and
    nothing else: the other lines are kept, the cursor is at the smaller
    column, the mode is command and the anchor is gone.  The line gets
    shorter by the distance between the columns. *)
Theorem visual_delete_within_line self y a c line typed :
  buffer self !! y = Some line →
  (a ≤ length line)%nat → (c ≤ length line)%nat →
  let line' := take (a `min` c) line ++ drop (a `max` c) line in
  handle_input (selecting self (y, a) (y, c)) (ord "d") typed
  = Ok (mkEditor (filename self) (<[y:=line']> (buffer self))
                 (y, a `min` c)%nat Command None (utf8buffer self), true)
  ∧ (length line' + (a `max` c - a `min` c) = length line)%nat.
Proof.
  intros Hline Ha Hc line'. split.
  - by apply visual_delete_in_line.
  - unfold line'. rewrite length_app, length_take, length_drop. lia.
Qed.

Lemma visual_delete_within_line_witness :
  let self := mkEditor None [str_of "hello"] (0, 0)%nat Command None [] in
  handle_input (selecting self (0, 4)%nat (0, 1)%nat) (ord "d") []
  = Ok (mkEditor None [str_of "ho"] (0, 1)%nat Command None [], true)
  ∧ (length (str_of "ho") + (4 - 1) = length (str_of "hello"))%nat.
Proof.
  apply (visual_delete_within_line
           (mkEditor None [str_of "hello"] (0, 0)%nat Command None [])
           0%nat 4%nat 1%nat (str_of "hello") []);
    [reflexivity | simpl; lia | simpl; lia].
Defined.

(** X10: 'v' followed at once by 'd' deletes nothing: the selection is
    empty, and the state is the one before 'v'. *)
Theorem select_then_delete_nothing self y x line :
  mode self = Command → visual_start self = None → pos self = (y, x) →
  buffer self !! y = Some line → (x ≤ length line)%nat →
  main_loop self (keys [ord "v"; ord "d"]) = Ok self.
Proof.
  intros Hm Hv Hpos Hline Hx.
  destruct self as [f b p m v u]. simpl in *. subst p m v.
  cbn [keys map main_loop]. unfold handle_input at 1. unf.
  unfold handle_command. unf. ords. simpl (_ =? _). cbn iota. unf.
  rewrite finish_valid by solve_valid_pos. unf.
  change (mkEditor f b (y, x) Visual (Some (y, x)) u)
    with (selecting (mkEditor f b (y, x) Command None u) (y, x) (y, x)).
  change 100 with (ord "d").
  rewrite (visual_delete_in_line _ y x x line []) by done. unf.
  rewrite Nat.min_id, Nat.max_id, take_drop.
  by rewrite list_insert_id.
Qed.

Lemma select_then_delete_nothing_witness :
  let self := mkEditor None [str_of "ab"] (0, 1)%nat Command None [] in
  main_loop self (keys [ord "v"; ord "d"]) = Ok self.
Proof.
  apply (select_then_delete_nothing
           (mkEditor None [str_of "ab"] (0, 1)%nat Command None [])
           0%nat 1%nat (str_of "ab"));
    [reflexivity | reflexivity | reflexivity | reflexivity | simpl; lia].
Defined.

(** X11: 'd' in visual mode with the two ends on different lines, in
    either order: the lines before the first stay, the first line keeps
    its prefix up to the first column and takes the suffix of the last
    line from the last column, the lines after the first up to the last
    one included go, and the lines after the last stay.  The buffer loses
    as many lines as the ends are apart and the cursor is at the first
    end. *)
Theorem visual_delete_across_lines self sl sc el ec first last typed :
  (sl < el)%nat →
  buffer self !! sl = Some first → buffer self !! el = Some last →
  (sc ≤ length first)%nat →
  let b' := take sl (buffer self)
            ++ (take sc first ++ drop ec last)
            :: drop (el + 1) (buffer self) in
  let self' := mkEditor (filename self) b' (sl, sc) Command None
                        (utf8buffer self) in
  handle_input (selecting self (sl, sc) (el, ec)) (ord "d") typed
  = Ok (self', true)
  ∧ handle_input (selecting self (el, ec) (sl, sc)) (ord "d") typed
    = Ok (self', true)
  ∧ (length b' + (el - sl) = length (buffer self))%nat.
Proof.
  intros Hlt Hfirst Hlast Hsc b' self'.
  pose proof (lookup_lt_Some _ _ _ Hlast) as Hel.
  assert (handle_input (selecting self (sl, sc) (el, ec)) (ord "d") typed
          = Ok (self', true)) as E.
  { by apply (visual_delete_lines (selecting self (sl, sc) (el, ec))
                                  sl sc el ec first last typed). }
  split; [done|]. split.
  - change (handle_visual (selecting self (el, ec) (sl, sc)) (ord "d") typed
            = Ok (self', true)).
    by rewrite <- visual_delete_sym.
  - unfold b'. rewrite length_app, length_take. simpl.
    rewrite length_drop. lia.
Qed.

Lemma visual_delete_across_lines_witness :
  let self := mkEditor None [str_of "ab"; str_of "cd"; str_of "ef";
                             str_of "gh"] (0, 0)%nat Command None [] in
  let self' := mkEditor None [str_of "ab"; str_of "cf"; str_of "gh"]
                        (1, 1)%nat Command None [] in
  handle_input (selecting self (1, 1)%nat (2, 1)%nat) (ord "d") []
  = Ok (self', true)
  ∧ handle_input (selecting self (2, 1)%nat (1, 1)%nat) (ord "d") []
    = Ok (self', true)
  ∧ (3 + (2 - 1) = 4)%nat.
Proof.
  apply (visual_delete_across_lines
           (mkEditor None [str_of "ab"; str_of "cd"; str_of "ef";
                           str_of "gh"] (0, 0)%nat Command None [])
           1%nat 1%nat 2%nat 1%nat (str_of "cd") (str_of "ef") []);
    [lia | reflexivity | reflexivity | simpl; lia].
Defined.

(** ** Screen columns *)

Lemma display_width_bounds cs :
  Z.of_nat (length cs) ≤ display_width cs ≤ 2 * Z.of_nat (length cs).
Proof.
  induction cs as [|c cs IH]; [done|].
  rewrite display_width_cons. unfold width. simpl length.
  case_match; lia.
Qed.

Lemma display_width_ascii cs :
  Forall (λ c, c ≤ 127) cs → display_width cs = Z.of_nat (length cs).
Proof.
  induction 1 as [|c cs Hc _ IH]; [done|].
  rewrite display_width_cons, IH. unfold width. simpl length.
  rewrite (proj2 (Z.ltb_ge 127 c)) by lia. lia.
Qed.

Lemma display_width_take_lt cs : ∀ i p,
  (i < p ≤ length cs)%nat →
  display_width (take i cs) < display_width (take p cs).
Proof.
  induction cs as [|c cs IH]; intros i p Hip; [simpl in Hip; lia|].
  destruct p as [|p]; [lia|]. simpl in Hip.
  destruct i as [|i]; simpl.
  - rewrite display_width_cons. pose proof (width_pos c).
    pose proof (display_width_nonneg (take p cs)).
    change (display_width []) with 0. lia.
  - rewrite !display_width_cons. specialize (IH i p). lia.
Qed.

(** X12: the screen column that [buffer2x] gives for the buffer column
    [p] counts the characters before [p] (those of the line, when [p] is
    past its end) once or twice each: it lies between their number and
    twice their number, and it is their number when the line holds only
    characters up to 127. *)
Theorem buffer2x_bounds self y p line :
  buffer self !! y = Some line →
  ∃ x, buffer2x self y p = Ok x
       ∧ Z.of_nat (p `min` length line) ≤ x ≤ 2 * Z.of_nat (p `min` length line)
       ∧ (Forall (λ c, c ≤ 127) line → x = Z.of_nat (p `min` length line)).
Proof.
  intros Hline. unfold buffer2x, getitem. rewrite Hline. cbn [bind].
  eexists. split; [reflexivity|].
  pose proof (display_width_bounds (take p line)) as Hb.
  rewrite length_take in Hb. split; [done|].
  intros Hascii. rewrite display_width_ascii, length_take; [done|].
  by apply Forall_take.
Qed.

Lemma buffer2x_bounds_witness :
  ∃ x, buffer2x (mkEditor None [[0x4E2D; 97; 98]] (0, 0)%nat Command None [])
                0 2 = Ok x
       ∧ Z.of_nat (2 `min` 3) ≤ x ≤ 2 * Z.of_nat (2 `min` 3)
       ∧ (Forall (λ c, c ≤ 127) [0x4E2D; 97; 98] → x = Z.of_nat (2 `min` 3)).
Proof.
  apply (buffer2x_bounds
           (mkEditor None [[0x4E2D; 97; 98]] (0, 0)%nat Command None [])
           0%nat 2%nat [0x4E2D; 97; 98]).
  reflexivity.
Defined.

(** X13: on a line that is not empty, [pos2buffer] undoes [buffer2x]: the
    screen column of a buffer column [p] of the line (its end included)
    is mapped back to [p]. *)
Theorem pos2buffer_buffer2x self y p line :
  buffer self !! y = Some line → line ≠ [] → (p ≤ length line)%nat →
  ∃ x, buffer2x self y p = Ok x ∧ pos2buffer self y x = Ok (Z.of_nat p).
Proof.
  intros Hline Hne Hp. unfold buffer2x, pos2buffer, getitem.
  rewrite Hline. cbn [bind]. eexists. split; [reflexivity|]. f_equal.
  destruct (decide (p < length line)%nat) as [Hlt|Hge].
  - rewrite (pos2buffer_loop_found _ line 0 0 0 p); [lia | done | lia |].
    intros j Hj. pose proof (display_width_take_lt line j p). lia.
  - assert (p = length line) as -> by lia. rewrite firstn_all.
    rewrite pos2buffer_loop_end.
    + destruct line; [done|]. simpl length. lia.
    + intros j Hj.
      pose proof (display_width_take_lt line j (length line)).
      rewrite firstn_all in *. lia.
Qed.

Lemma pos2buffer_buffer2x_witness :
  ∃ x, buffer2x (mkEditor None [[0x4E2D; 97; 98]] (0, 0)%nat Command None [])
                0 2 = Ok x
       ∧ pos2buffer (mkEditor None [[0x4E2D; 97; 98]] (0, 0)%nat Command None [])
                    0 x = Ok 2.
Proof.
  apply (pos2buffer_buffer2x
           (mkEditor None [[0x4E2D; 97; 98]] (0, 0)%nat Command None [])
           0%nat 2%nat [0x4E2D; 97; 98]);
    [reflexivity | discriminate | simpl; lia].
Defined.

(** ** More on the decoder *)

Lemma Z_land_le_r x y : 0 ≤ x → 0 ≤ y → Z.land x y ≤ y.
Proof.
  intros Hx Hy. destruct x as [|p|p], y as [|q|q]; try lia;
    rewrite ?Z.land_0_l, ?Z.land_0_r; try lia.
  change (Z.land (Z.pos p) (Z.pos q)) with (Z.of_N (Pos.land p q)).
  pose proof (N.land_le_r (N.pos p) (N.pos q)) as H.
  change (N.land (N.pos p) (N.pos q)) with (Pos.land p q) in H. lia.
Qed.

Lemma Z_lor_ge_l x y : 0 ≤ x → 0 ≤ y → x ≤ Z.lor x y.
Proof.
  intros Hx Hy. pose proof (Z.add_lor_land x y).
  pose proof (Z_land_le_r x y Hx Hy). lia.
Qed.

Lemma Z_lor_ge_r x y : 0 ≤ x → 0 ≤ y → y ≤ Z.lor x y.
Proof. intros. rewrite Z.lor_comm. by apply Z_lor_ge_l. Qed.

Lemma land_low_bits b n : 0 ≤ n → Z.land b (Z.ones n) = b mod 2 ^ n.
Proof. intros. by apply Z.land_ones. Qed.

Ltac mod_lia :=
  change (2 ^ 3) with 8 in *; change (2 ^ 4) with 16 in *;
  change (2 ^ 5) with 32 in *; change (2 ^ 6) with 64 in *;
  change (2 ^ 12) with 4096 in *; change (2 ^ 18) with 262144 in *;
  Z.to_euclidean_division_equations; lia.

(** A character written on two, three or four bytes is not ASCII. *)
Lemma cp2_ge b0 b1 : 0xC2 ≤ b0 < 0xE0 → 0x80 ≤ cp2 b0 b1.
Proof.
  intros H0. unfold cp2.
  change 0x1F with (Z.ones 5). change 0x3F with (Z.ones 6).
  rewrite !land_low_bits, Z.shiftl_mul_pow2 by lia.
  pose proof (Z.mod_pos_bound b1 (2 ^ 6) ltac:(lia)).
  etrans; [|apply Z_lor_ge_l]; mod_lia.
Qed.

Lemma cp3_ge b0 b1 b2 :
  0xE0 ≤ b0 < 0xF0 → second3_ok b0 b1 = true → 0x80 ≤ cp3 b0 b1 b2.
Proof.
  intros H0 H1. unfold cp3.
  change 0x0F with (Z.ones 4). change 0x3F with (Z.ones 6).
  rewrite !land_low_bits, !Z.shiftl_mul_pow2 by lia.
  pose proof (Z.mod_pos_bound b0 (2 ^ 4) ltac:(lia)).
  pose proof (Z.mod_pos_bound b1 (2 ^ 6) ltac:(lia)).
  pose proof (Z.mod_pos_bound b2 (2 ^ 6) ltac:(lia)).
  assert (0 ≤ Z.lor (b1 mod 2 ^ 6 * 2 ^ 6) (b2 mod 2 ^ 6)) as Hnn
    by (apply Z.lor_nonneg; mod_lia).
  destruct (decide (b0 = 0xE0)) as [->|Hne].
  - unfold second3_ok in H1. simpl in H1. apply in_range_spec in H1.
    etrans; [|apply Z_lor_ge_r]; [|mod_lia..].
    etrans; [|apply Z_lor_ge_l]; mod_lia.
  - etrans; [|apply Z_lor_ge_l]; mod_lia.
Qed.

Lemma cp4_ge b0 b1 b2 b3 :
  0xF0 ≤ b0 < 0xF5 → second4_ok b0 b1 = true → 0x80 ≤ cp4 b0 b1 b2 b3.
Proof.
  intros H0 H1. unfold cp4.
  change 0x07 with (Z.ones 3). change 0x3F with (Z.ones 6).
  rewrite !land_low_bits, !Z.shiftl_mul_pow2 by lia.
  pose proof (Z.mod_pos_bound b0 (2 ^ 3) ltac:(lia)).
  pose proof (Z.mod_pos_bound b1 (2 ^ 6) ltac:(lia)).
  pose proof (Z.mod_pos_bound b2 (2 ^ 6) ltac:(lia)).
  pose proof (Z.mod_pos_bound b3 (2 ^ 6) ltac:(lia)).
  assert (0 ≤ Z.lor (b2 mod 2 ^ 6 * 2 ^ 6) (b3 mod 2 ^ 6)) as Hnn
    by (apply Z.lor_nonneg; mod_lia).
  assert (0 ≤ Z.lor (b1 mod 2 ^ 6 * 2 ^ 12)
                    (Z.lor (b2 mod 2 ^ 6 * 2 ^ 6) (b3 mod 2 ^ 6))) as Hnn'
    by (apply Z.lor_nonneg; mod_lia).
  destruct (decide (b0 = 0xF0)) as [->|Hne].
  - unfold second4_ok in H1. simpl in H1. apply in_range_spec in H1.
    etrans; [|apply Z_lor_ge_r]; [|mod_lia..].
    etrans; [|apply Z_lor_ge_l]; mod_lia.
  - etrans; [|apply Z_lor_ge_l]; mod_lia.
Qed.

(** Bytes of which no proper prefix decodes hold one character when they
    decode: one ASCII byte, or the bytes of one character beyond ASCII, all
    of them 0x80 or more. *)
Lemma utf8_decode_group bs s :
  (∀ k, (0 < k < length bs)%nat → utf8_decode (take k bs) = None) →
  utf8_decode bs = Some s → bs ≠ [] →
  ∃ c, s = [c]
       ∧ (bs = [c] ∧ c < 0x80
          ∨ (2 ≤ length bs)%nat ∧ 0x80 ≤ c
            ∧ Forall (λ b, 0x80 ≤ b < 256) bs).
Proof.
  destruct bs as [|b0 t]; [done|]. intros Hpre Hdec _.
  cbn [utf8_decode] in Hdec.
  destruct (Z.ltb_spec b0 0x80) as [H80|H80].
  { destruct t as [|b1 t1].
    - simpl in Hdec. simplify_eq. exists b0. auto.
    - specialize (Hpre 1%nat ltac:(simpl; lia)). simpl in Hpre.
      rewrite (proj2 (Z.ltb_lt _ _) H80) in Hpre. done. }
  destruct (Z.ltb_spec b0 0xC2) as [HC2|HC2]; [done|].
  destruct (Z.ltb_spec b0 0xE0) as [HE0|HE0].
  { destruct t as [|b1 t1]; [done|].
    destruct (is_cont b1) eqn:E1; [|done].
    destruct t1 as [|b2 t2].
    - simpl in Hdec. simplify_eq. exists (cp2 b0 b1). split; [done|].
      right. apply is_cont_range in E1. split; [simpl; lia|].
      split; [by apply cp2_ge|]. repeat constructor; lia.
    - specialize (Hpre 2%nat ltac:(simpl; lia)). cbn [take utf8_decode] in Hpre.
      revert Hpre. ztest. by rewrite E1. }
  destruct (Z.ltb_spec b0 0xF0) as [HF0|HF0].
  { destruct t as [|b1 [|b2 t2]]; [done..|].
    destruct (second3_ok b0 b1) eqn:E1; [|done].
    destruct (is_cont b2) eqn:E2; [|done].
    destruct t2 as [|b3 t3].
    - simpl in Hdec. simplify_eq. exists (cp3 b0 b1 b2). split; [done|].
      right. pose proof (second3_ok_cont _ _ E1). apply is_cont_range in E2.
      split; [simpl; lia|]. split; [by apply cp3_ge|].
      repeat constructor; lia.
    - specialize (Hpre 3%nat ltac:(simpl; lia)). cbn [take utf8_decode] in Hpre.
      revert Hpre. ztest. by rewrite E1, E2. }
  destruct (Z.ltb_spec b0 0xF5) as [HF5|HF5]; [|done].
  destruct t as [|b1 [|b2 [|b3 t3]]]; [done..|].
  destruct (second4_ok b0 b1) eqn:E1; [|done].
  destruct (is_cont b2) eqn:E2; [|done].
  destruct (is_cont b3) eqn:E3; [|done].
  assert (0x80 ≤ b1 ≤ 0xBF) as R1.
  { revert E1. unfold second4_ok. repeat case_match;
      rewrite ?in_range_spec, ?is_cont_range; lia. }
  destruct t3 as [|b4 t4].
  - simpl in Hdec. simplify_eq. exists (cp4 b0 b1 b2 b3). split; [done|].
    right. apply is_cont_range in E2, E3.
    split; [simpl; lia|]. split; [by apply cp4_ge|].
    repeat constructor; lia.
  - specialize (Hpre 4%nat ltac:(simpl; lia)). cbn [take utf8_decode] in Hpre.
    revert Hpre. ztest. by rewrite E1, E2, E3.
Qed.

(** The converse for one character beyond ASCII: no proper prefix of its
    bytes decodes. *)
Lemma utf8_decode_prefix_fails bs c k :
  utf8_decode bs = Some [c] → (2 ≤ length bs)%nat →
  (0 < k < length bs)%nat → utf8_decode (take k bs) = None.
Proof.
  intros Hdec Hlen Hk. destruct bs as [|b0 t]; [simpl in Hlen; lia|].
  cbn [utf8_decode] in Hdec.
  destruct (Z.ltb_spec b0 0x80) as [H80|H80].
  { destruct (utf8_decode t) as [[|]|] eqn:E; simplify_eq/=.
    destruct t; [simpl in Hlen; lia|].
    simpl in E. repeat case_match; simplify_eq/=;
      by destruct (utf8_decode _). }
  destruct k as [|k]; [lia|]. cbn [take utf8_decode]. ztest.
  destruct (Z.ltb_spec b0 0xC2) as [HC2|HC2]; [done|].
  destruct (Z.ltb_spec b0 0xE0) as [HE0|HE0].
  { destruct t as [|b1 [|b2 t2]]; [done| |].
    - simpl in Hk. by replace k with 0%nat by lia.
    - destruct (is_cont b1); [|done].
      simpl in Hdec. repeat case_match; simplify_eq/=;
        by destruct (utf8_decode _). }
  destruct (Z.ltb_spec b0 0xF0) as [HF0|HF0].
  { destruct t as [|b1 [|b2 [|b3 t3]]]; [done..| |].
    - simpl in Hk. destruct k as [|[|k]]; [done|done|lia].
    - destruct (_ && _); [|done].
      simpl in Hdec. repeat case_match; simplify_eq/=;
        by destruct (utf8_decode _). }
  destruct (Z.ltb_spec b0 0xF5) as [HF5|HF5]; [|done].
  destruct t as [|b1 [|b2 [|b3 [|b4 t4]]]]; [done..| |].
  - simpl in Hk. destruct k as [|[|[|k]]]; [done|done|done|lia].
  - destruct (_ && _ && _); [|done].
    simpl in Hdec. repeat case_match; simplify_eq/=;
      by destruct (utf8_decode _).
Qed.

(** ** Bytes that stay pending *)

(** One byte that does not complete the pending bytes is kept with them. *)
Lemma insert_byte_kept self ch typed :
  in_bounds self → mode self = Insert →
  forallb is_byte (utf8buffer self) = true →
  0 ≤ ch < 256 → ch ≠ 27 → ch ≠ 10 → ch ≠ 127 →
  utf8_decode (utf8buffer self ++ [ch]) = None →
  handle_input self ch typed
  = Ok (set_utf8buffer self (utf8buffer self ++ [ch]), true).
Proof.
  intros Hb%in_bounds_valid_pos Hm Hu Hch H27 H10 H127 Hdec.
  unfold handle_input. rewrite Hm. unfold handle_insert.
  rewrite insert_decode_byte by done. rewrite Hdec. cbn [bind].
  rewrite insert_dispatch_none by (ords; lia). cbn [bind].
  by rewrite finish_valid.
Qed.

(** A run of bytes none of which completes what is pending: all of them
    are kept, and nothing else changes. *)
Lemma feed_pending bs : ∀ self,
  in_bounds self → mode self = Insert →
  forallb is_byte (utf8buffer self) = true →
  Forall (λ b, 0 ≤ b < 256 ∧ b ≠ 27 ∧ b ≠ 10 ∧ b ≠ 127) bs →
  (∀ k, (0 < k ≤ length bs)%nat →
        utf8_decode (utf8buffer self ++ take k bs) = None) →
  main_loop self (keys bs) = Ok (set_utf8buffer self (utf8buffer self ++ bs)).
Proof.
  induction bs as [|b bs IH]; intros self Hb Hm Hu Hbs Hdec.
  - simpl. by rewrite app_nil_r, set_utf8buffer_id.
  - apply Forall_cons in Hbs as [(Hb0 & H27 & H10 & H127) Hbs].
    cbn [keys map main_loop].
    rewrite insert_byte_kept; [|done..|].
    2: { apply (Hdec 1%nat). simpl. lia. }
    cbn [bind]. fold (keys bs). rewrite IH; [| done | done | | done |].
    + unf. by rewrite <- app_assoc.
    + unf. apply bytes_snoc; [done|lia..].
    + intros k Hk. unf. rewrite <- app_assoc.
      apply (Hdec (S k)). simpl. lia.
Qed.

(** X14: once the pending bytes are structurally invalid, every further
    byte other than escape, enter and delete is kept with them: whatever
    is typed, letters included, goes to the pending bytes and the buffer,
    the cursor and the mode do not change. *)
Theorem invalid_pending_swallows_input self bs :
  in_bounds self → mode self = Insert →
  forallb is_byte (utf8buffer self) = true →
  structurally_invalid (utf8buffer self) →
  Forall (λ b, 0 ≤ b < 256 ∧ b ≠ 27 ∧ b ≠ 10 ∧ b ≠ 127) bs →
  main_loop self (keys bs) = Ok (set_utf8buffer self (utf8buffer self ++ bs)).
Proof.
  intros Hb Hm Hu Hinv Hbs.
  apply feed_pending; try done; intros k _; apply Hinv.
Qed.

Lemma invalid_pending_swallows_input_witness :
  let self := mkEditor None [str_of "ab"] (0, 1)%nat Insert None [0x80] in
  main_loop self (keys (str_of "hello"))
  = Ok (set_utf8buffer self (0x80 :: str_of "hello")).
Proof.
  apply (invalid_pending_swallows_input
           (mkEditor None [str_of "ab"] (0, 1)%nat Insert None [0x80])
           (str_of "hello")).
  - apply in_bounds_valid_pos. exists (str_of "ab").
    split; [reflexivity | simpl; lia].
  - reflexivity.
  - reflexivity.
  - intros ext. reflexivity.
  - repeat constructor; vm_compute; congruence.
Defined.

(** ** Characters of several bytes *)

Lemma main_loop_app l1 : ∀ l2 self self1,
  main_loop self l1 = Ok self1 →
  main_loop self (l1 ++ l2) = main_loop self1 l2.
Proof.
  induction l1 as [|[ch t] l1 IH]; intros l2 self self1 E; simpl in *.
  - by simplify_eq.
  - destruct (handle_input self ch t) as [[s0 r]|] eqn:E0; [|done].
    apply handle_input_true in E0 as ->. simpl in *. by apply IH.
Qed.

(** X15: in insert mode with nothing pending, the bytes of one character
    that UTF-8 writes on two, three or four bytes, fed one per event,
    insert that character at the cursor and move the cursor one column to
    the right; nothing stays pending. *)
Theorem multibyte_character self bs c y x line :
  mode self = Insert → utf8buffer self = [] → pos self = (y, x) →
  buffer self !! y = Some line → (x ≤ length line)%nat →
  utf8_decode bs = Some [c] → (2 ≤ length bs)%nat →
  main_loop self (keys bs)
  = Ok (set_pos (set_buffer self
                   (<[y:=take x line ++ [c] ++ drop x line]> (buffer self)))
                (y, x + 1)%nat).
Proof.
  intros Hm Hu Hpos Hline Hx Hdec Hlen.
  pose proof (lookup_lt_Some _ _ _ Hline) as Hy.
  assert (valid_pos (buffer self) (pos self)) as Hv.
  { rewrite Hpos. by exists line. }
  destruct (utf8_decode_group bs [c]) as (c' & [= <-] & Hshape);
    [| done | by destruct bs |].
  { intros k Hk. by apply (utf8_decode_prefix_fails bs c). }
  destruct Hshape as [[-> _]|(_ & Hc & Hbytes)]; [simpl in Hlen; lia|].
  destruct (exists_last (l:=bs)) as (front & b & ->); [by destruct bs|].
  apply Forall_app in Hbytes as [Hfront Hb]. apply Forall_inv in Hb.
  simpl in Hb. rewrite length_app in Hlen. simpl in Hlen.
  unfold keys. rewrite map_app. fold (keys front).
  rewrite (main_loop_app _ _ _ (set_utf8buffer self front)).
  2: { rewrite feed_pending; rewrite ?Hu; try done.
       - by apply in_bounds_valid_pos.
       - eapply Forall_impl; [exact Hfront|]. simpl. lia.
       - intros k Hk. simpl.
         rewrite <- (take_app_le front [b]) by lia.
         apply (utf8_decode_prefix_fails _ c); [done|..];
           rewrite length_app; simpl; lia. }
  cbn [map main_loop]. unfold handle_input. change (mode _) with (mode self).
  rewrite Hm. unfold handle_insert.
  rewrite insert_decode_byte; [| |lia..].
  2: { unf. clear -Hfront. induction Hfront as [|? ? ? _ IH]; [done|].
       simpl. rewrite IH, (proj2 (is_byte_spec _)) by lia. done. }
  unf. rewrite Hdec. cbn [bind].
  destruct self as [f b0 p m v u]. simpl in *. subst p m u.
  unfold insert_dispatch, isctrl. unf. ords. ztest. cbn [orb andb negb].
  unfold getitem. rewrite Hline. unf. rewrite setitem_lt by done. unf.
  rewrite finish_valid; [done|]. unf. apply valid_pos_setitem; [done|].
  rewrite !length_app, length_take, length_drop. simpl. lia.
Qed.

Lemma multibyte_character_witness :
  let self := mkEditor None [str_of "ab"] (0, 1)%nat Insert None [] in
  main_loop self (keys [0xF0; 0x9F; 0x98; 0x80])
  = Ok (set_pos (set_buffer self [[97; 0x1F600; 98]]) (0, 2)%nat).
Proof.
  apply (multibyte_character
           (mkEditor None [str_of "ab"] (0, 1)%nat Insert None [])
           [0xF0; 0x9F; 0x98; 0x80] 0x1F600 0%nat 1%nat (str_of "ab"));
    [reflexivity | reflexivity | reflexivity | reflexivity | simpl; lia
    | reflexivity | simpl; lia].
Defined.

(** ** What the lines of the buffer are made of *)

(** Command mode leaves the buffer and the pending bytes alone. *)
Lemma handle_command_buffer self ch typed self' r :
  handle_command self ch typed = Ok (self', r) →
  buffer self' = buffer self ∧ utf8buffer self' = utf8buffer self.
Proof.
  unfold handle_command, getitem. destruct self as [f b [y x] m v u]. unf.
  intros Hrun.
  repeat (case_match; unf; simplify_eq); try done.
  all: destruct (refresh _); by simplify_eq/=.
Qed.

Ltac solve_lines :=
  repeat first
    [ assumption
    | apply Forall_insert | apply Forall_app_2 | apply Forall_cons_2
    | apply Forall_take | apply Forall_drop | apply Forall_nil_2
    | match goal with
      | H : ?l !! _ = Some ?x, HF : Forall _ ?l |- Forall _ ?x =>
        exact (Forall_lookup_1 _ _ _ _ HF H)
      | H : Forall ?P (?z :: _) |- ?P ?z => exact (Forall_inv H)
      | H : Forall ?P (_ :: ?l) |- Forall ?P ?l => exact (Forall_inv_tail H)
      end ].

(** The lines after an event of insert mode are made of the characters of
    the lines before and of the text decoded. *)
Lemma insert_dispatch_lines (P : Z → Prop) s self ch self' :
  Forall (Forall P) (buffer self) →
  (∀ t, s = Some t → isctrl ch = false → Forall P t) →
  insert_dispatch s self ch = Ok self' →
  Forall (Forall P) (buffer self').
Proof.
  intros HF Hs. unfold insert_dispatch, getitem, setitem, list_insert_at.
  destruct self as [f b [y x] m v u]. unf. intros Hrun.
  repeat (case_match; unf; simplify_eq); try done.
  all: try (specialize (Hs _ eq_refl); rewrite negb_true_iff in *;
            specialize (Hs ltac:(done))).
  all: solve_lines.
Qed.

(** The lines after an event of visual mode are made of the characters of
    the lines before. *)
Lemma handle_visual_lines (P : Z → Prop) self ch typed self' r :
  Forall (Forall P) (buffer self) →
  handle_visual self ch typed = Ok (self', r) →
  Forall (Forall P) (buffer self').
Proof.
  intros HF. unfold handle_visual, getitem, setitem, del_slice.
  destruct self as [f b [y x] m v u]. unf. intros Hrun.
  destruct (ch =? 27); unf.
  { destruct (refresh _); by simplify_eq/=. }
  destruct (ch =? ord "d"); unf.
  { destruct v as [[al ac]|]; unf; [|done].
    repeat (case_match; unf; simplify_eq); try done.
    all: destruct (refresh _); simplify_eq/=.
    all: solve_lines. }
  destruct (ch =? ord "y"); unf.
  { destruct (refresh _); by simplify_eq/=. }
  destruct (_ || _); unf.
  - destruct (handle_command _ _ _) as [[s0 r0]|] eqn:E; unf; [|done].
    apply handle_command_buffer in E as [E _]. simpl in E.
    destruct (refresh _); simplify_eq/=. by rewrite ?E.
  - destruct (refresh _); by simplify_eq/=.
Qed.

(** The decoding step keeps the pending bytes free of prefixes that
    decode, and what it decodes is one character: the byte itself when it
    is ASCII, a character beyond ASCII otherwise. *)
Lemma insert_decode_strict self ch s self1 :
  pending_strict self → forallb is_byte (utf8buffer self) = true → 0 ≤ ch →
  insert_decode self ch = Ok (s, self1) →
  pending_strict self1
  ∧ self1 = set_utf8buffer self (utf8buffer self1)
  ∧ ∀ t, s = Some t →
         utf8buffer self1 = []
         ∧ ∃ c, t = [c] ∧ (c = ch ∨ 0x80 ≤ c).
Proof.
  intros Hstrict Hu Hch. unfold insert_decode.
  assert (pending_strict (set_utf8buffer self [])) as Hnil.
  { intros k Hk. simpl in Hk. lia. }
  destruct (Z.ltb_spec ch 256); simpl; [|by intros [= <- <-]].
  destruct (ch =? 27); simpl; [by intros [= <- <-]|].
  destruct (bytes_snoc _ ch Hu Hch H) as [-> _]. simpl.
  assert (∀ k, (0 < k < length (utf8buffer self ++ [ch]))%nat →
               utf8_decode (take k (utf8buffer self ++ [ch])) = None) as Hpre.
  { intros k Hk. rewrite length_app in Hk. simpl in Hk.
    rewrite take_app_le by lia. apply Hstrict. lia. }
  destruct (utf8_decode _) as [t|] eqn:Hdec; intros [= <- <-].
  - split; [done|]. split; [done|]. intros ? [= <-]. split; [done|].
    destruct (utf8_decode_group _ _ Hpre Hdec) as (c & -> & Hc);
      [by destruct (utf8buffer self)|].
    exists c. split; [done|]. destruct Hc as [[Heq _]|(_ & Hc & _)]; [|auto].
    left. destruct (utf8buffer self) as [|? [|]]; by simplify_eq/=.
  - split; [|by split]. intros k Hk. unf. rewrite length_app in Hk.
    simpl in Hk. destruct (decide (k ≤ length (utf8buffer self))%nat).
    + rewrite take_app_le by done. apply Hstrict. lia.
    + rewrite take_ge by (rewrite length_app; simpl; lia). done.
Qed.

(** X16: in insert mode, from a well-formed state whose pending bytes
    have no prefix that decodes, a key other than enter and backspace
    either leaves the buffer as it is or inserts exactly one character at
    the cursor, which then moves one column to the right with nothing left
    pending; the character inserted is never a control character. *)
Theorem typing_inserts_one_character self ch typed y x line :
  wf self → pending_strict self → mode self = Insert →
  pos self = (y, x) → buffer self !! y = Some line →
  0 ≤ ch → ch ≠ 10 → ch ≠ 127 → ch ≠ KEY_BACKSPACE →
  ∃ self', handle_input self ch typed = Ok (self', true)
    ∧ pending_strict self'
    ∧ (buffer self' = buffer self
       ∨ ∃ c, 32 ≤ c ∧ c ≠ 127
              ∧ buffer self'
                = <[y:=take x line ++ c :: drop x line]> (buffer self)
              ∧ pos self' = (y, x + 1)%nat
              ∧ utf8buffer self' = []).
Proof.
  intros Hwf Hstrict Hm Hpos Hline Hch H10 H127 Hbs.
  destruct (handle_insert_ok self ch Hwf Hm Hch) as (self' & Hrun & _).
  exists self'. unfold handle_input. rewrite Hm. split; [done|].
  destruct Hwf as (Hb & Hu & _).
  unfold handle_insert in Hrun.
  destruct (insert_decode self ch) as [[s self1]|] eqn:Hdec; [|done].
  destruct (insert_decode_strict _ _ _ _ Hstrict Hu Hch Hdec)
    as (Hstrict1 & Hself1 & Hs).
  cbn [bind] in Hrun.
  destruct (insert_dispatch s self1 ch) as [self2|] eqn:Hdis; [|done].
  cbn [bind] in Hrun. destruct (refresh self2); [|done].
  cbn [bind] in Hrun. injection Hrun as ->.
  pose proof (lookup_lt_Some _ _ _ Hline) as Hy.
  rewrite Hself1 in Hdis. unfold insert_dispatch in Hdis.
  destruct self as [f b p m v u]. simpl in *. subst p m. unf.
  revert Hdis. ords. intros Hdis.
  destruct (Z.eqb_spec ch 27).
  { case_decide; injection Hdis as <-; (split; [exact Hstrict1 | by left]). }
  rewrite (proj2 (Z.eqb_neq ch 10)), (proj2 (Z.eqb_neq ch 263)),
    (proj2 (Z.eqb_neq ch 127)) in Hdis by done.
  cbn [orb] in Hdis.
  destruct s as [[|c t]|].
  - injection Hdis as <-. split; [done | by left].
  - destruct (Hs _ eq_refl) as (Hu1 & c' & [= <- ->] & Hc).
    destruct (isctrl ch) eqn:Hctrl; cbn [negb] in Hdis.
    { injection Hdis as <-. split; [done | by left]. }
    unfold getitem in Hdis. rewrite Hline in Hdis. unf.
    rewrite setitem_lt in Hdis by done. unf. injection Hdis as <-.
    split; [done|]. right. exists c. unf.
    assert (32 ≤ ch) as H32.
    { unfold isctrl in Hctrl. rewrite andb_false_iff, Z.leb_gt, Z.ltb_ge
        in Hctrl. lia. }
    repeat split; try done; lia.
  - injection Hdis as <-. split; [done | by left].
Qed.

Lemma typing_inserts_one_character_witness :
  ∃ self',
    handle_input
      (mkEditor None [str_of "ab"] (0, 1)%nat Insert None [0xC3]) 0xA9 []
    = Ok (self', true)
    ∧ pending_strict self'
    ∧ (buffer self' = [str_of "ab"]
       ∨ ∃ c, 32 ≤ c ∧ c ≠ 127
              ∧ buffer self' = [[97; c; 98]]
              ∧ pos self' = (0, 2)%nat
              ∧ utf8buffer self' = []).
Proof.
  apply (typing_inserts_one_character
           (mkEditor None [str_of "ab"] (0, 1)%nat Insert None [0xC3])
           0xA9 [] 0%nat 1%nat (str_of "ab")).
  - split; [|split; [reflexivity | discriminate]].
    apply in_bounds_valid_pos. exists (str_of "ab").
    split; [reflexivity | simpl; lia].
  - intros k Hk. simpl in Hk. assert (k = 1%nat) as -> by lia. reflexivity.
  - reflexivity.
  - reflexivity.
  - reflexivity.
  - lia.
  - lia.
  - lia.
  - unfold KEY_BACKSPACE. lia.
Defined.

(** One event keeps the state well formed, the pending bytes free of
    prefixes that decode and the lines free of line ends. *)
Lemma handle_input_session self ch typed :
  wf self → pending_strict self → no_line_ends (buffer self) → 0 ≤ ch →
  ∃ self', handle_input self ch typed = Ok (self', true)
           ∧ wf self' ∧ pending_strict self'
           ∧ no_line_ends (buffer self').
Proof.
  intros Hwf Hstrict Hlines Hch.
  destruct (handle_input_ok self ch typed Hwf Hch) as (self' & Hrun & Hwf' & _).
  exists self'. split; [done|]. split; [done|].
  unfold handle_input in Hrun. destruct (mode self) eqn:Hm.
  - apply handle_command_buffer in Hrun as [Eb Eu].
    unfold pending_strict, no_line_ends. by rewrite Eb, Eu.
  - destruct Hwf as (Hb & Hu & _). unfold handle_insert in Hrun.
    destruct (insert_decode self ch) as [[s self1]|] eqn:Hdec; [|done].
    destruct (insert_decode_strict _ _ _ _ Hstrict Hu Hch Hdec)
      as (Hstrict1 & Hself1 & Hs).
    cbn [bind] in Hrun.
    destruct (insert_dispatch s self1 ch) as [self2|] eqn:Hdis; [|done].
    cbn [bind] in Hrun. destruct (refresh self2); [|done].
    cbn [bind] in Hrun. injection Hrun as ->.
    destruct (insert_dispatch_ok s self1 ch) as (? & Hdis' & _ & _ & Eu & _).
    { by rewrite Hself1. }
    { by rewrite Hself1. }
    rewrite Hdis in Hdis'. injection Hdis' as <-. split.
    + unfold pending_strict. by rewrite Eu.
    + eapply insert_dispatch_lines; [| |exact Hdis].
      * by rewrite Hself1.
      * intros t -> Hctrl. destruct (Hs _ eq_refl) as (_ & c & -> & Hc).
        unfold isctrl in Hctrl.
        rewrite andb_false_iff, Z.leb_gt, Z.ltb_ge in Hctrl.
        repeat constructor; lia.
  - destruct Hwf as (Hb & Hu & Hv).
    destruct (handle_visual_ok self ch typed Hb Hv Hm)
      as (? & Hrun' & _ & _ & Eu & _).
    rewrite Hrun in Hrun'. injection Hrun' as <-. split.
    + unfold pending_strict. by rewrite Eu.
    + by eapply handle_visual_lines.
Qed.

Lemma main_loop_session events : ∀ self,
  wf self → pending_strict self → no_line_ends (buffer self) →
  Forall (λ e, 0 ≤ e.1) events →
  ∃ self', main_loop self events = Ok self'
           ∧ wf self' ∧ pending_strict self' ∧ no_line_ends (buffer self').
Proof.
  induction events as [|[ch typed] events IH]; intros self Hwf Hp Hl Hev.
  - by exists self.
  - apply Forall_cons in Hev as [Hch Hev]. simpl in Hch.
    destruct (handle_input_session self ch typed Hwf Hp Hl Hch)
      as (self1 & E & Hwf1 & Hp1 & Hl1).
    cbn [main_loop]. rewrite E. cbn [bind]. by apply IH.
Qed.

(** ** Saving and loading *)

Lemma rstrip_clean line :
  Forall (λ c, c ≠ 10 ∧ c ≠ 13) line → rstrip line = line.
Proof.
  induction 1 as [|c line [H10 H13] _ IH]; [done|].
  simpl. rewrite IH. destruct line; [|done].
  by rewrite (proj2 (Z.eqb_neq c 10)), (proj2 (Z.eqb_neq c 13)).
Qed.

Lemma rstrip_clean_newline line :
  Forall (λ c, c ≠ 10 ∧ c ≠ 13) line → rstrip (line ++ [10]) = line.
Proof.
  induction 1 as [|c line [H10 H13] _ IH]; [done|].
  simpl. rewrite IH. destruct line; [|done].
  by rewrite (proj2 (Z.eqb_neq c 10)), (proj2 (Z.eqb_neq c 13)).
Qed.

Lemma readlines_from_line cur line rest :
  Forall (λ c, c ≠ 10 ∧ c ≠ 13) line →
  readlines_from cur (line ++ 10 :: rest)
  = (cur ++ line ++ [10]) :: readlines_from [] rest.
Proof.
  intros Hline. revert cur.
  induction Hline as [|c line [H10 _] _ IH]; intros cur; simpl.
  - done.
  - rewrite (proj2 (Z.eqb_neq c 10)) by done. rewrite IH.
    by rewrite <- app_assoc.
Qed.

(** The text that [save_file] writes reads back as the lines written. *)
Lemma file_lines_saved b :
  no_line_ends b → file_lines (concat (map (λ l, l ++ [10]) b)) = b.
Proof.
  unfold file_lines, readlines.
  induction 1 as [|line b Hline _ IH]; [done|].
  simpl. rewrite <- app_assoc. simpl.
  rewrite readlines_from_line by done. simpl.
  by rewrite rstrip_clean_newline, IH.
Qed.

(** What [load_file] reads has no line end left in its lines, as long as
    the text holds no carriage return (the text layer has turned every
    line end into "\n"). *)
Lemma file_lines_clean text :
  Forall (λ c, c ≠ 13) text → no_line_ends (file_lines text).
Proof.
  unfold file_lines, readlines, no_line_ends. intros Htext.
  assert (∀ cur, Forall (λ c, c ≠ 10 ∧ c ≠ 13) cur →
    Forall (Forall (λ c, c ≠ 10 ∧ c ≠ 13))
           (map rstrip (readlines_from cur text))) as H; [|by apply H].
  induction Htext as [|c text H13 _ IH]; intros cur Hcur; simpl.
  - destruct cur as [|c0 cur]; [done|]. cbn [map].
    apply Forall_cons_2; [by rewrite rstrip_clean | done].
  - destruct (Z.eqb_spec c 10) as [->|H10]; cbn [map].
    + apply Forall_cons_2; [by rewrite rstrip_clean_newline | by apply IH].
    + apply IH. apply Forall_app_2; [done|]. by repeat constructor.
Qed.

(** X17: saving and loading again.  When the editor has a file name and
    no line of the buffer holds a line-end character, the text that
    [save_file] writes is the lines each followed by "\n", and a new
    editor started on that text has the same buffer. *)
Theorem save_then_load self c f :
  filename self = Some (c :: f) → buffer self ≠ [] →
  no_line_ends (buffer self) →
  ∃ text, save_file self = Some (c :: f, text)
          ∧ buffer (init (filename self) (Some (file_lines text)))
            = buffer self.
Proof.
  intros Hf Hne Hclean. unfold save_file. rewrite Hf.
  eexists. split; [reflexivity|].
  rewrite file_lines_saved by done.
  unfold init, load_file. simpl. by destruct (buffer self).
Qed.

Lemma save_then_load_witness :
  let self := mkEditor (Some (str_of "f")) [str_of "ab"; []; str_of "c"]
                       (0, 0)%nat Command None [] in
  ∃ text, save_file self = Some (str_of "f", text)
          ∧ buffer (init (filename self) (Some (file_lines text)))
            = buffer self.
Proof.
  apply (save_then_load
           (mkEditor (Some (str_of "f")) [str_of "ab"; []; str_of "c"]
                     (0, 0)%nat Command None [])
           (ord "f") []);
    [reflexivity | discriminate |].
  repeat constructor; vm_compute; congruence.
Defined.

Lemma init_session fname file :
  (∀ text, file = Some text → Forall (λ c, c ≠ 13) text) →
  pending_strict (init fname (file_lines <$> file))
  ∧ no_line_ends (buffer (init fname (file_lines <$> file))).
Proof.
  intros Hfile. split.
  - intros k Hk. unfold init, load_file in Hk. simpl in Hk.
    repeat case_match; simpl in Hk; lia.
  - unfold init, load_file. simpl.
    destruct fname as [[|c f]|], file as [text|]; simpl;
      try by repeat constructor.
    specialize (Hfile _ eq_refl). apply file_lines_clean in Hfile.
    destruct (file_lines text); [by repeat constructor | done].
Qed.

(** X18: a whole session.  The editor is started on a file, or on none,
    whose text holds no carriage return, and is fed key codes that are not
    negative.  In every state that the loop reaches the cursor is in
    bounds and no line of the buffer holds a line-end character, and so
    the buffer is exactly what [load_file] would read back from what
    [save_file] writes. *)
Theorem session_round_trip fname file events self' :
  (∀ text, file = Some text → Forall (λ c, c ≠ 13) text) →
  Forall (λ e, 0 ≤ e.1) events →
  main_loop (init fname (file_lines <$> file)) events = Ok self' →
  in_bounds self'
  ∧ no_line_ends (buffer self')
  ∧ file_lines (concat (map (λ l, l ++ [10]) (buffer self')))
    = buffer self'.
Proof.
  intros Hfile Hev Hrun. destruct (init_session fname file Hfile) as [Hp Hl].
  destruct (main_loop_session events _ (wf_init _ _) Hp Hl Hev)
    as (s & E & (Hb & _) & _ & Hl').
  rewrite E in Hrun. injection Hrun as <-.
  split; [done|]. split; [done|]. by apply file_lines_saved.
Qed.

Lemma session_round_trip_witness :
  let events := keys [ord "a"; 10; ord "x"; 27] in
  let self' := mkEditor (Some (str_of "f")) [str_of "a"; str_of "xb"]
                        (1, 0)%nat Command None [] in
  main_loop (init (Some (str_of "f")) (file_lines <$> Some (str_of "ab")))
            events
  = Ok self'
  ∧ in_bounds self'
  ∧ no_line_ends (buffer self')
  ∧ file_lines (concat (map (λ l, l ++ [10]) (buffer self')))
    = buffer self'.
Proof.
  split; [reflexivity|].
  apply (session_round_trip (Some (str_of "f")) (Some (str_of "ab"))
           (keys [ord "a"; 10; ord "x"; 27])).
  - intros text [= <-]. repeat constructor; vm_compute; congruence.
  - repeat constructor; vm_compute; congruence.
  - reflexivity.
Defined.

(** X1: in every state that [main_loop] reaches from the state that
    [Editor.__init__] builds, on whatever file and whatever key codes, the
    buffer is not empty, the cursor is at a position of the buffer and,
    while the mode is visual, so is the anchor. *)
Theorem session_stays_in_bounds fname file events self' :
  main_loop (init fname file) events = Ok self' →
  buffer self' ≠ []
  ∧ valid_pos (buffer self') (pos self')
  ∧ anchor_ok self'.
Proof.
  intros Hrun.
  destruct (main_loop_bounds events (init fname file) self')
    as [Hb Hv]; [apply wf_init | apply anchor_ok_init | done |].
  split; [by destruct Hb|]. split; [by apply in_bounds_valid_pos | done].
Qed.

Lemma session_stays_in_bounds_witness :
  let events := keys [ord "i"; ord "a"; 10; 127; 27; ord "k"; ord "v"] in
  let self' := mkEditor None [str_of "a"; []] (0, 0)%nat Visual
                        (Some (0, 0)%nat) [] in
  main_loop (init None None) events = Ok self'
  ∧ buffer self' ≠ []
  ∧ valid_pos (buffer self') (pos self')
  ∧ anchor_ok self'.
Proof.
  split; [reflexivity|].
  apply (session_stays_in_bounds None None
           (keys [ord "i"; ord "a"; 10; 127; 27; ord "k"; ord "v"])).
  reflexivity.
Defined.

Lemma ensure_newline_app t1 t2 :
  t2 ≠ [] → ensure_newline (t1 ++ t2) = t1 ++ ensure_newline t2.
Proof.
  intros Hne. unfold ensure_newline.
  destruct (exists_last Hne) as (t & c & ->).
  rewrite app_assoc, !last_snoc. case_match; by rewrite <- ?app_assoc.
Qed.

Lemma saved_readlines text : ∀ cur,
  Forall (λ c, c ≠ 13) text → Forall (λ c, c ≠ 10 ∧ c ≠ 13) cur →
  concat (map (λ l, l ++ [10]) (map rstrip (readlines_from cur text)))
  = ensure_newline (cur ++ text).
Proof.
  induction text as [|c text IH]; intros cur Htext Hcur.
  - rewrite app_nil_r. destruct cur as [|a cur']; [done|].
    cbn [readlines_from map concat].
    rewrite rstrip_clean, app_nil_r by done.
    unfold ensure_newline.
    destruct (exists_last (l:=a :: cur')) as (t & c0 & Heq); [done|].
    rewrite Heq in *. rewrite last_snoc.
    apply Forall_app in Hcur as [_ [[H10 _] _]%Forall_cons].
    by rewrite (proj2 (Z.eqb_neq c0 10)).
  - apply Forall_cons in Htext as [H13 Htext]. cbn [readlines_from].
    destruct (Z.eqb_spec c 10) as [->|H10].
    + cbn [map concat]. rewrite rstrip_clean_newline by done.
      rewrite IH by done. simpl.
      destruct text as [|c' text'].
      * unfold ensure_newline. rewrite last_snoc. simpl.
        by rewrite app_nil_r.
      * change (cur ++ 10 :: c' :: text')
          with (cur ++ [10] ++ c' :: text').
        rewrite (app_assoc cur [10]). by rewrite ensure_newline_app.
    + rewrite IH; [by rewrite <- app_assoc | done |].
      apply Forall_app_2; [done|]. by repeat constructor.
Qed.

(** X19: loading and saving at once.  An editor started on the text of a
    file (without carriage returns) writes the same text back, with a
    "\n" added at the end when the text lacked it; an empty file is
    written back as one empty line. *)
Theorem load_then_save c f text :
  Forall (λ c, c ≠ 13) text →
  ∃ text', save_file (init (Some (c :: f)) (Some (file_lines text)))
           = Some (c :: f, text')
           ∧ (text = [] → text' = [10])
           ∧ (∀ t, text = t ++ [10] → text' = text)
           ∧ (∀ t d, text = t ++ [d] → d ≠ 10 → text' = text ++ [10]).
Proof.
  intros Htext. unfold save_file, init, load_file. simpl.
  eexists. split; [reflexivity|].
  pose proof (saved_readlines text [] Htext ltac:(done)) as Hsaved.
  fold (readlines text) in Hsaved. fold (file_lines text) in Hsaved.
  simpl in Hsaved. split; [|split].
  - by intros ->.
  - intros t ->. destruct (file_lines (t ++ [10])) eqn:E.
    + simpl in Hsaved. unfold ensure_newline in Hsaved.
      rewrite last_snoc in Hsaved. simpl in Hsaved. by destruct t.
    + rewrite Hsaved. unfold ensure_newline. by rewrite last_snoc.
  - intros t d -> Hd. destruct (file_lines (t ++ [d])) eqn:E.
    + simpl in Hsaved. unfold ensure_newline in Hsaved.
      rewrite last_snoc, (proj2 (Z.eqb_neq d 10)) in Hsaved by done.
      by destruct t.
    + rewrite Hsaved. unfold ensure_newline.
      by rewrite last_snoc, (proj2 (Z.eqb_neq d 10)).
Qed.

Lemma load_then_save_witness :
  ∃ text', save_file (init (Some (str_of "f"))
                           (Some (file_lines (str_of "ab"))))
           = Some (str_of "f", text')
           ∧ (str_of "ab" = [] → text' = [10])
           ∧ (∀ t, str_of "ab" = t ++ [10] → text' = str_of "ab")
           ∧ (∀ t d, str_of "ab" = t ++ [d] → d ≠ 10 →
                     text' = str_of "ab" ++ [10]).
Proof.
  apply (load_then_save (ord "f") [] (str_of "ab")).
  repeat constructor; vm_compute; congruence.
Defined.
